(** * svg_to_pdf: the concurrent SVG-to-PDF conversion pipeline

    A shallow embedding of [svg_to_pdf.py]: enumeration of the page files
    ([process_files] and its inner [page_number]), the worker loop
    ([convert_svg_to_pdf]) run by several processes against one shared
    queue, and the ordered merge ([write_pdf]).

    Python values are modelled as follows.
    - [int] is [Z]; [str] and [bytes] are [string] (a sequence of 8-bit
      characters; file names are taken to be ASCII text).
    - a tuple [(page_number, data)] is a pair [Z * bytes].
    - the shared [mp.Queue], the managed [output_list], standard output and
      the files written are the fields of one [store], threaded through a
      state-and-exception monad.
    - the libraries the program calls ([os], [zipfile], [re], [svglib],
      [reportlab], [PyPDF2]) are the fields of the class [Platform]. *)

From Stdlib Require Import ZArith NArith List String Ascii Bool Lia.
From Stdlib Require Import Sorting.Sorted Sorting.Permutation.
Import ListNotations.

Local Open Scope string_scope.
Local Open Scope Z_scope.

(** ** Python values *)

Definition str := string.
Definition bytes := string.

Definition task : Type := Z * bytes.
Definition result : Type := Z * bytes.

Definition LF : string := String (ascii_of_nat 10) EmptyString.

(** The module constant [BLANK_PDF_PAGE], line by line (four of the lines
    end in a space). *)
Definition BLANK_PDF_PAGE : bytes :=
  String.concat LF
    [ "%PDF-1.4";
      "1 0 obj<</Type/Catalog/Pages 2 0 R>>endobj";
      "2 0 obj<</Type/Pages/Count 1/Kids[3 0 R]>>endobj";
      "3 0 obj<</Type/Page/MediaBox[0 0 595.276 841.890]/Parent 2 0 R/Resources<<>>>>endobj";
      "xref";
      "0 4";
      "0000000000 65535 f ";
      "0000000009 00000 n ";
      "0000000052 00000 n ";
      "0000000101 00000 n ";
      "trailer<</Size 4/Root 1 0 R>>";
      "startxref";
      "186";
      "%%EOF" ].

(** [a < b] on [bytes]: lexicographic on the unsigned byte values, a proper
    prefix being smaller. *)
Fixpoint bytes_lt (a b : bytes) : bool :=
  match a, b with
  | _, EmptyString => false
  | EmptyString, String _ _ => true
  | String x a', String y b' =>
      if Ascii.eqb x y then bytes_lt a' b'
      else (N_of_ascii x <? N_of_ascii y)%N
  end.

(** [a < b] on tuples [(int, bytes)]: the first position where the two
    differ decides. *)
Definition tuple_lt (a b : Z * bytes) : bool :=
  if fst a =? fst b then bytes_lt (snd a) (snd b) else fst a <? fst b.

Definition tuple_le (a b : Z * bytes) : Prop := tuple_lt b a = false.

(** [list.sort()]: a stable sort that only asks [<].  The insertion below
    puts the new element before the first one that is not smaller than it,
    so that equal elements keep their order. *)
Fixpoint insert_sorted (x : Z * bytes) (l : list (Z * bytes)) : list (Z * bytes) :=
  match l with
  | [] => [x]
  | y :: l' => if tuple_lt y x then y :: insert_sorted x l' else x :: l
  end.

Definition list_sort (l : list (Z * bytes)) : list (Z * bytes) :=
  fold_right insert_sorted [] l.

(** [str.endswith] and [str.lower] (on ASCII text). *)
Fixpoint str_rev_onto (s acc : str) : str :=
  match s with
  | EmptyString => acc
  | String c s' => str_rev_onto s' (String c acc)
  end.

Definition str_rev (s : str) : str := str_rev_onto s EmptyString.

Definition endswith (s suffix : str) : bool :=
  String.prefix (str_rev suffix) (str_rev s).

Definition lower_char (c : ascii) : ascii :=
  let n := N_of_ascii c in
  if ((65 <=? n) && (n <=? 90))%N then ascii_of_N (n + 32) else c.

Fixpoint lower (s : str) : str :=
  match s with
  | EmptyString => EmptyString
  | String c s' => String (lower_char c) (lower s')
  end.

(** ** Exceptions *)

Inductive exn : Type :=
| IndexError
| ValueError
| TypeError (msg : str)
| re_error
| OSError
| BadZipFile
| QueueEmpty
| SvgError
| PdfReadError.

(** The error [process_files] raises for an unusable path. *)
Definition InputError : exn := TypeError "Directory or zip file is required.".

Inductive outcome (A : Type) : Type :=
| Return (a : A)
| Raise (e : exn).
Arguments Return {A} a.
Arguments Raise {A} e.

(** ** What [re.findall] returns, and integer literals *)

(** An element of the list [re.findall] returns: a string (no group or one
    group in the pattern) or a tuple of strings (several groups). *)
Inductive match_item : Type :=
| MStr (s : str)
| MTuple (groups : list str).

Definition is_space (c : ascii) : bool :=
  let n := N_of_ascii c in (((9 <=? n) && (n <=? 13)) || (n =? 32))%N.

Definition is_digit (c : ascii) : bool :=
  let n := N_of_ascii c in ((48 <=? n) && (n <=? 57))%N.

Definition digit_value (c : ascii) : Z := Z.of_N (N_of_ascii c) - 48.

Fixpoint lstrip (s : str) : str :=
  match s with
  | String c s' => if is_space c then lstrip s' else s
  | EmptyString => EmptyString
  end.

Definition strip (s : str) : str := str_rev (lstrip (str_rev (lstrip s))).

(** Digits with single underscores between them; [acc] is the value read so
    far and [after_digit] tells whether the previous character was a
    digit. *)
Fixpoint digits_value (s : str) (acc : Z) (after_digit : bool) : option Z :=
  match s with
  | EmptyString => if after_digit then Some acc else None
  | String c s' =>
      if is_digit c then digits_value s' (10 * acc + digit_value c) true
      else if Ascii.eqb c "_"%char then
             if after_digit then digits_value s' acc false else None
           else None
  end.

(** The decimal literals [int(s)] accepts: surrounding white space, an
    optional sign, then the digits. *)
Definition int_literal (s : str) : option Z :=
  match strip s with
  | String "-"%char d => option_map Z.opp (digits_value d 0 false)
  | String "+"%char d => digits_value d 0 false
  | d => digits_value d 0 false
  end.

Fixpoint count_digits (s : str) : nat :=
  match s with
  | EmptyString => O
  | String c s' => if is_digit c then S (count_digits s') else count_digits s'
  end.

(** [l[-1]]. *)
Definition last_item {A : Type} (l : list A) : outcome A :=
  match rev l with
  | [] => Raise IndexError
  | x :: _ => Return x
  end.

(** ** The shared store and the monad *)

(** What the program prints, one constructor per [print] call of the
    source. *)
Inductive out_line : Type :=
| Progress (done total : Z)
| ProgressCleared (done total : Z)
| ConvertError (e : exn)
| IndexWarning (file_name pattern : str)
| MergerError (i : Z) (e : exn)
| CreatedWithErrors (file_name : str) (processed replaced : nat) (error_page : list Z)
| CreatedOk (file_name : str) (processed : nat).

Record store : Type := mkStore {
  svg_queue : list task;              (* mp.Queue, head is pulled first *)
  output_list : list result;          (* mp_manager.list() *)
  stdout : list out_line;
  written : list (str * list bytes)   (* files written: name, merged pages *)
}.

Definition M (A : Type) : Type := store -> outcome A * store.

Definition ret {A} (a : A) : M A := fun st => (Return a, st).
Definition raise {A} (e : exn) : M A := fun st => (Raise e, st).
Definition bind {A B} (m : M A) (k : A -> M B) : M B :=
  fun st => match m st with
            | (Return a, st') => k a st'
            | (Raise e, st') => (Raise e, st')
            end.
Definition lift {A} (o : outcome A) : M A := fun st => (o, st).

(** [try: body except ...: handler]; the handler re-raises what its
    [except] clause does not name. *)
Definition try_except {A} (body : M A) (handler : exn -> M A) : M A :=
  fun st => match body st with
            | (Return a, st') => (Return a, st')
            | (Raise e, st') => handler e st'
            end.

Declare Scope py_scope.
Delimit Scope py_scope with py.
Notation "x <- m ;; k" := (bind m (fun x => k))
  (at level 61, m at next level, right associativity) : py_scope.
Notation "m ;; k" := (bind m (fun _ => k))
  (at level 61, right associativity) : py_scope.
Local Open Scope py_scope.

Fixpoint for_each {A} (l : list A) (body : A -> M unit) : M unit :=
  match l with
  | [] => ret tt
  | x :: l' => body x ;; for_each l' body
  end.

Definition print (line : out_line) : M unit :=
  fun st => (Return tt, mkStore (svg_queue st) (output_list st)
                                (stdout st ++ [line]) (written st)).

Definition qsize : M Z :=
  fun st => (Return (Z.of_nat (List.length (svg_queue st))), st).

Definition queue_put (t : task) : M unit :=
  fun st => (Return tt, mkStore (svg_queue st ++ [t]) (output_list st)
                                (stdout st) (written st)).

Definition output_append (r : result) : M unit :=
  fun st => (Return tt, mkStore (svg_queue st) (output_list st ++ [r])
                                (stdout st) (written st)).

Definition of_option {A} (o : option A) (e : exn) : outcome A :=
  match o with
  | Some a => Return a
  | None => Raise e
  end.

(** Every exception [m] can raise satisfies [ok]. *)
Definition raises_only {A} (ok : exn -> Prop) (m : M A) : Prop :=
  forall (st st' : store) (e : exn), m st = (Raise e, st') -> ok e.

(** [m] raises from every store. *)
Definition always_raises {A} (m : M A) : Prop :=
  forall st : store, exists (e : exn) (st' : store), m st = (Raise e, st').

(** [m] leaves the result list and the written files alone. *)
Definition frame {A} (m : M A) : Prop :=
  forall st : store,
    output_list (snd (m st)) = output_list st /\ written (snd (m st)) = written st.

(** ** The libraries the program calls *)

Class Platform : Type := {
  (* os, os.path, open *)
  isdir : str -> bool;
  basename : str -> str;
  splitext : str -> str * str;
  path_join : str -> str -> str;
  walk : str -> list (str * list str * list str);
  read_file : str -> option bytes;
  (* zipfile *)
  is_zipfile : str -> bool;
  zip_namelist : str -> option (list str);
  zip_read : str -> str -> option bytes;
  (* re: whether a pattern compiles, and findall for a compiled one (a
     compiled pattern is identified with its source) *)
  re_valid : str -> bool;
  findall : str -> str -> list match_item;
  (* sys.get_int_max_str_digits(): 0 when int() has no limit *)
  int_max_str_digits : nat;
  (* svglib, reportlab *)
  Drawing : Type;
  svg2rlg : bytes -> outcome Drawing;
  drawToString : Drawing -> outcome bytes;
  (* PyPDF2: PdfMerger.append on one blob, PdfMerger.write to a path *)
  merger_append : bytes -> outcome unit;
  can_write : str -> bool
}.

Section Pipeline.

Context {P : Platform}.

(** ** [process_files] *)

Definition default_pattern : str := "\d+".

(** [if not pattern: pattern = r'\d+'] *)
Definition effective_pattern (pattern : option str) : str :=
  match pattern with
  | None => default_pattern
  | Some EmptyString => default_pattern
  | Some p => p
  end.

Definition re_compile (p : str) : outcome str :=
  if re_valid p then Return p else Raise re_error.

(** [int(s)] for a string: the literal must parse and, where the
    interpreter limits the number of digits, stay within the limit. *)
Definition int_of_str (s : str) : option Z :=
  match int_max_str_digits with
  | O => int_literal s
  | limit => if (count_digits s <=? limit)%nat then int_literal s else None
  end.

Definition int (m : match_item) : outcome Z :=
  match m with
  | MStr s => match int_of_str s with
              | Some n => Return n
              | None => Raise ValueError
              end
  | MTuple _ =>
      Raise (TypeError "int() argument must be a string, a bytes-like object or a real number, not 'tuple'")
  end.

Definition page_number (file_name pattern : str) : M Z :=
  try_except
    (item <- lift (last_item (findall pattern file_name)) ;; lift (int item))
    (fun e => match e with
              | IndexError => print (IndexWarning file_name pattern) ;; ret 0
              | _ => raise e
              end).

(** Body of the loop over the files of one directory. *)
Definition dir_file (root pattern file : str) : M unit :=
  if endswith file ".svg" then
    svg_data <- lift (of_option (read_file (path_join root file)) OSError) ;;
    n <- page_number file pattern ;;
    queue_put (n, svg_data)
  else ret tt.

(** Body of the loop over the members of the archive. *)
Definition zip_member (path pattern file : str) : M unit :=
  if endswith (lower file) ".svg" then
    n <- page_number file pattern ;;
    data <- lift (of_option (zip_read path file) BadZipFile) ;;
    queue_put (n, data)
  else ret tt.

Definition process_files (path_to_files : str) (pattern : option str) : M (str * Z) :=
  pattern <- lift (re_compile (effective_pattern pattern)) ;;
  if isdir path_to_files then
    let pdf_file_name := basename path_to_files ++ ".pdf" in
    for_each (walk path_to_files)
      (fun '(root, _, files) => for_each files (dir_file root pattern)) ;;
    number_of_svg_files <- qsize ;;
    ret (pdf_file_name, number_of_svg_files)
  else if is_zipfile path_to_files then
    let pdf_file_name := fst (splitext (basename path_to_files)) ++ ".pdf" in
    names <- lift (of_option (zip_namelist path_to_files) BadZipFile) ;;
    for_each names (zip_member path_to_files pattern) ;;
    number_of_svg_files <- qsize ;;
    ret (pdf_file_name, number_of_svg_files)
  else raise InputError.

(** ** [convert_svg_to_pdf]: the worker *)

(** The first [try] of the loop body: [svg2rlg] then [drawToString], any
    [Exception] replaced by the blank page. *)
Definition render (svg_data : bytes) : M bytes :=
  try_except
    (drawing <- lift (svg2rlg svg_data) ;; lift (drawToString drawing))
    (fun e => print (ConvertError e) ;; ret BLANK_PDF_PAGE).

(** The loop body after a successful pull. *)
Definition convert_task (done total : Z) (t : task) : M unit :=
  let '(page_number, svg_data) := t in
  pdf_content <- render svg_data ;;
  output_append (page_number, pdf_content) ;;
  print (ProgressCleared done total).

(** [svg_queue.get_nowait()].  It raises [Empty] on an empty queue, and may
    also raise it on a queue that still holds tasks (another process is
    reading, or the feeder has not flushed yet): [empty_signal] is that
    choice, made by the environment. *)
Definition get_nowait (empty_signal : bool) : M task :=
  fun st => match svg_queue st with
            | [] => (Raise QueueEmpty, st)
            | t :: q =>
                if empty_signal then (Raise QueueEmpty, st)
                else (Return t, mkStore q (output_list st) (stdout st) (written st))
            end.

(** Where a worker process stands in [convert_svg_to_pdf].  The function is
    cut into steps that each make one access to the shared queue or list;
    the conversion itself is local to the worker.  An exception that is not
    an [Exception] (an interrupt) and a rendering call that never returns
    are not modelled. *)
Inductive pc : Type :=
| AtWhile                              (* about to test qsize() > 0 *)
| AtProgress                           (* about to build and print progress *)
| AtGet (done total : Z)               (* about to call get_nowait() *)
| Holding (done total : Z) (t : task)  (* task pulled, conversion to come *)
| Exited                               (* the loop condition was false *)
| Crashed (e : exn).                   (* an exception left the function *)

Definition convert_svg_to_pdf_step (number_of_pages : Z) (empty_signal : bool)
    (p : pc) : M pc :=
  match p with
  | AtWhile =>
      n <- qsize ;;
      if n >? 0 then ret AtProgress else ret Exited
  | AtProgress =>
      n <- qsize ;;
      print (Progress (number_of_pages - n) number_of_pages) ;;
      ret (AtGet (number_of_pages - n) number_of_pages)
  | AtGet done total =>
      try_except
        (t <- get_nowait empty_signal ;; ret (Holding done total t))
        (fun e => match e with
                  | QueueEmpty => ret AtWhile      (* continue *)
                  | _ => raise e
                  end)
  | Holding done total t =>
      convert_task done total t ;;
      ret AtWhile
  | Exited => ret Exited
  | Crashed e => ret (Crashed e)
  end.

(** ** The pool of workers *)

Record job : Type := mkJob {
  shared : store;
  procs : list pc
}.

Definition terminated (p : pc) : bool :=
  match p with
  | Exited | Crashed _ => true
  | _ => false
  end.

Fixpoint set_proc (w : nat) (p : pc) (l : list pc) : list pc :=
  match l, w with
  | [], _ => []
  | _ :: l', O => p :: l'
  | q :: l', S w' => q :: set_proc w' p l'
  end.

(** One step of the job: the scheduler picks a live worker [w] and decides
    whether a pull it makes sees the empty signal. *)
Definition job_step (number_of_pages : Z) (choice : nat * bool) (j : job) : option job :=
  let '(w, empty_signal) := choice in
  match nth_error (procs j) w with
  | Some p =>
      if terminated p then None
      else match convert_svg_to_pdf_step number_of_pages empty_signal p (shared j) with
           | (Return p', st') => Some (mkJob st' (set_proc w p' (procs j)))
           | (Raise e, st') => Some (mkJob st' (set_proc w (Crashed e) (procs j)))
           end
  | None => None
  end.

Fixpoint run_workers (number_of_pages : Z) (schedule : list (nat * bool)) (j : job) : option job :=
  match schedule with
  | [] => Some j
  | c :: schedule' =>
      match job_step number_of_pages c j with
      | Some j' => run_workers number_of_pages schedule' j'
      | None => None
      end
  end.

(** [mp.Process(...).start()], [number_of_CPUs] times. *)
Definition spawn (number_of_CPUs : nat) (st : store) : job :=
  mkJob st (repeat AtWhile number_of_CPUs).

(** Every [p.join()] returns. *)
Definition joined (j : job) : bool := forallb terminated (procs j).

(** ** [write_pdf] *)

Fixpoint fold_m {A B} (f : A -> B -> M A) (l : list B) (a : A) : M A :=
  match l with
  | [] => ret a
  | x :: l' => a' <- f a x ;; fold_m f l' a'
  end.

(** Body of the loop of [write_pdf]; the accumulator is the merger (the
    blobs appended so far) and [error_page]. *)
Definition merge_page (acc : list bytes * list Z) (r : result) : M (list bytes * list Z) :=
  let '(merger, error_page) := acc in
  let '(i, pdf) := r in
  try_except
    (lift (merger_append pdf) ;;
     if String.eqb pdf BLANK_PDF_PAGE
     then ret ((merger ++ [pdf])%list, (error_page ++ [i])%list)
     else ret ((merger ++ [pdf])%list, error_page))
    (fun e => print (MergerError i e) ;; ret (merger, (error_page ++ [i])%list)).

Definition sort_output : M (list result) :=
  fun st => let l := list_sort (output_list st) in
            (Return l, mkStore (svg_queue st) l (stdout st) (written st)).

Definition merger_write (file_name : str) (merger : list bytes) : M unit :=
  fun st => if can_write file_name
            then (Return tt, mkStore (svg_queue st) (output_list st) (stdout st)
                                     (written st ++ [(file_name, merger)]))
            else (Raise OSError, st).

Definition write_pdf (file_name : str) : M unit :=
  fun st =>
    match output_list st with
    | [] => (Return tt, st)
    | _ :: _ =>
        (sorted <- sort_output ;;
         acc <- fold_m merge_page sorted ([], []) ;;
         let '(merger, error_page) := acc in
         merger_write file_name merger ;;
         match error_page with
         | _ :: _ =>
             print (CreatedWithErrors file_name (List.length sorted)
                                      (List.length error_page) error_page)
         | [] => print (CreatedOk file_name (List.length sorted))
         end) st
    end.

(** ** [main] *)

(** [main] with the path and the pattern already taken from the command
    line.  The queue and the result list are created empty.  [schedule] is
    the interleaving of the workers; a schedule that does not run every
    worker to its end is not a run of the program ([None]). *)
Definition main (path_to_svg : str) (pattern_page_number : option str)
    (number_of_CPUs : nat) (schedule : list (nat * bool)) (st : store)
    : option (outcome unit * store) :=
  let st0 := mkStore [] [] (stdout st) (written st) in
  match process_files path_to_svg pattern_page_number st0 with
  | (Raise e, st1) => Some (Raise e, st1)
  | (Return (pdf_file_name, number_of_svg_files), st1) =>
      match run_workers number_of_svg_files schedule (spawn number_of_CPUs st1) with
      | Some j => if joined j then Some (write_pdf pdf_file_name (shared j)) else None
      | None => None
      end
  end.

End Pipeline.

(** ** What [write_pdf] and a worker compute, as pure functions *)

Section Summaries.

Context {P : Platform}.

Definition accepts (pdf : bytes) : bool :=
  match merger_append pdf with
  | Return _ => true
  | Raise _ => false
  end.

(** The results whose blob the merger takes. *)
Definition appended (l : list result) : list result :=
  filter (fun r => accepts (snd r)) l.

Definition is_error_page (r : result) : bool :=
  negb (accepts (snd r)) || String.eqb (snd r) BLANK_PDF_PAGE.

Definition error_pages (l : list result) : list Z :=
  map fst (filter is_error_page l).

Fixpoint merger_log (l : list result) : list out_line :=
  match l with
  | [] => []
  | (i, pdf) :: l' =>
      match merger_append pdf with
      | Return _ => merger_log l'
      | Raise e => MergerError i e :: merger_log l'
      end
  end.

Definition summary (file_name : str) (l : list result) : out_line :=
  match error_pages l with
  | [] => CreatedOk file_name (List.length l)
  | e => CreatedWithErrors file_name (List.length l) (List.length e) e
  end.

(** The blob a worker publishes for a payload. *)
Definition rendered (svg_data : bytes) : bytes :=
  match svg2rlg svg_data with
  | Return drawing =>
      match drawToString drawing with
      | Return pdf_content => pdf_content
      | Raise _ => BLANK_PDF_PAGE
      end
  | Raise _ => BLANK_PDF_PAGE
  end.

Definition result_of (t : task) : result := (fst t, rendered (snd t)).

(** The tasks pulled and not yet published. *)
Definition held_by (p : pc) : list task :=
  match p with
  | Holding _ _ t => [t]
  | _ => []
  end.

Definition held (l : list pc) : list task := flat_map held_by l.

Definition crashed (p : pc) : bool :=
  match p with
  | Crashed _ => true
  | _ => false
  end.

Definition exited (p : pc) : bool :=
  match p with
  | Exited => true
  | _ => false
  end.

(** [file_name] is one of the files [process_files] reads for [path]. *)
Definition enumerated (path file_name : str) : Prop :=
  (isdir path = true /\
   exists root dirs files,
     In (root, dirs, files) (walk path) /\ In file_name files /\
     endswith file_name ".svg" = true) \/
  (isdir path = false /\ is_zipfile path = true /\
   exists names,
     zip_namelist path = Some names /\ In file_name names /\
     endswith (lower file_name) ".svg" = true).

(** What holds of the pool at every moment: no worker has crashed; the
    results published, the tasks held and the tasks still queued account
    for the enumerated tasks; once a worker has exited the queue is empty. *)
Definition pool_invariant (tasks : list task) (j : job) : Prop :=
  existsb crashed (procs j) = false /\
  Permutation (output_list (shared j) ++
               map result_of (held (procs j) ++ svg_queue (shared j)))
              (map result_of tasks) /\
  (existsb exited (procs j) = true -> svg_queue (shared j) = []).

(** A schedule that lets worker 0 do all the work, then lets every worker
    find the queue empty. *)
Definition one_task_schedule : list (nat * bool) :=
  [(0%nat, false); (0%nat, false); (0%nat, false); (0%nat, false)].

Fixpoint drain_schedule (number_of_tasks : nat) (number_of_CPUs : nat) : list (nat * bool) :=
  match number_of_tasks with
  | O => map (fun w => (w, false)) (seq 0 number_of_CPUs)
  | S k => (one_task_schedule ++ drain_schedule k number_of_CPUs)%list
  end.

End Summaries.

(** ** What enumeration and the pool leave behind, as pure functions *)

Section Histories.

Context {P : Platform}.

(** The files a walk lists, each with its directory, in the order of the two
    loops of [process_files]. *)
Definition walked_files (w : list (str * list str * list str)) : list (str * str) :=
  flat_map (fun '(root, _, files) => map (fun file => (root, file)) files) w.

Definition unmatched (pattern file_name : str) : bool :=
  match findall pattern file_name with
  | [] => true
  | _ :: _ => false
  end.

(** The warnings [page_number] prints for a list of file names. *)
Definition warnings (pattern : str) (names : list str) : list out_line :=
  flat_map (fun f => if unmatched pattern f then [IndexWarning f pattern] else [])
           names.

(** [n] is the page index [page_number] gives to [file_name]. *)
Definition indexed_as (pattern file_name : str) (n : Z) : Prop :=
  match last_item (findall pattern file_name) with
  | Return m => int m = Return n
  | Raise _ => n = 0
  end.

(** The exceptions that can leave [process_files]. *)
Definition enumeration_error (e : exn) : Prop :=
  e = re_error \/ e = InputError \/ e = OSError \/ e = BadZipFile \/
  e = ValueError \/
  e = TypeError "int() argument must be a string, a bytes-like object or a real number, not 'tuple'".

(** [m] only adds to the queue and to the output: it removes nothing and
    leaves the result list and the written files alone. *)
Definition grows {A} (m : M A) : Prop :=
  forall st : store,
    exists (queued : list task) (printed : list out_line),
      snd (m st) = mkStore (svg_queue st ++ queued) (output_list st)
                           (stdout st ++ printed) (written st).

(** A line a worker prints, for a job of [total] pages. *)
Definition worker_line (total : Z) (line : out_line) : Prop :=
  match line with
  | Progress done t | ProgressCleared done t => t = total /\ 0 <= done <= total
  | ConvertError _ => True
  | _ => False
  end.

Definition progress_in_bounds (total : Z) (p : pc) : Prop :=
  match p with
  | AtGet done t | Holding done t _ => t = total /\ 0 <= done <= total
  | _ => True
  end.

Definition rejected (r : result) : bool := negb (accepts (snd r)).

(** How a state of the pool relates to the store [st0] the workers were
    started on: tasks leave the queue from its head, results and lines are
    only added, the written files stay, every published result and every
    held task comes from a pulled task, and no worker has crashed. *)
Definition pool_history (st0 : store) (j : job) : Prop :=
  exists (pulled : list task) (published : list result) (printed : list out_line),
    svg_queue st0 = (pulled ++ svg_queue (shared j))%list /\
    output_list (shared j) = (output_list st0 ++ published)%list /\
    stdout (shared j) = (stdout st0 ++ printed)%list /\
    written (shared j) = written st0 /\
    Permutation (published ++ map result_of (held (procs j))) (map result_of pulled) /\
    existsb crashed (procs j) = false.

(** The progress figures of a job of [total] pages stay within bounds. *)
Definition progress_history (total : Z) (st0 : store) (j : job) : Prop :=
  Z.of_nat (List.length (svg_queue (shared j))) <= total /\
  Forall (progress_in_bounds total) (procs j) /\
  exists printed : list out_line,
    stdout (shared j) = (stdout st0 ++ printed)%list /\
    Forall (worker_line total) printed.

Definition is_merger_error (line : out_line) : Prop :=
  match line with
  | MergerError _ _ => True
  | _ => False
  end.

End Histories.

(** ** The ordering rule of the specification

    "Sort results by pageIndex ascending; ties broken by stable original
    collection order": a stable insertion sort that compares page indices
    only. *)
Fixpoint insert_by_page_index (x : result) (l : list result) : list result :=
  match l with
  | [] => [x]
  | y :: l' => if fst y <? fst x then y :: insert_by_page_index x l' else x :: l
  end.

Definition sort_by_page_index (l : list result) : list result :=
  fold_right insert_by_page_index [] l.

(** ** A small concrete platform

    A directory [book], a directory [empty] without files and one archive
    [pages.zip]; two patterns are known to [findall], the default one and
    [[a-z]+], and the pattern made of an opening parenthesis alone does not
    compile; a payload renders when it starts with [<svg]; the merger takes
    what starts with [%PDF]. *)
Module Demo.

Fixpoint runs (p : ascii -> bool) (s cur : str) : list match_item :=
  let flush := match cur with
               | EmptyString => []
               | _ => [MStr (str_rev cur)]
               end in
  match s with
  | EmptyString => flush
  | String c s' =>
      if p c then runs p s' (String c cur) else (flush ++ runs p s' EmptyString)%list
  end.

Definition is_lower (c : ascii) : bool :=
  let n := N_of_ascii c in ((97 <=? n) && (n <=? 122))%N.

Definition demo_findall (pattern file_name : str) : list match_item :=
  if String.eqb pattern "\d+" then runs is_digit file_name EmptyString
  else if String.eqb pattern "[a-z]+" then runs is_lower file_name EmptyString
  else [].

Definition demo_read (path : str) : option bytes :=
  if String.eqb path "book/page_2.svg" then Some "<svg>two</svg>"
  else if String.eqb path "book/page_1.svg" then Some "not an image"
  else if String.eqb path "book/cover.svg" then Some "<svg>cover</svg>"
  else None.

Definition demo_zip_read (path member : str) : option bytes :=
  if String.eqb member "p10.SVG" then Some "<svg>ten</svg>"
  else if String.eqb member "intro.svg" then Some "<svg>intro</svg>"
  else None.

#[export] Instance demo : Platform := {|
  isdir := fun p => String.eqb p "book" || String.eqb p "empty";
  basename := fun p => p;
  splitext := fun p => if String.eqb p "pages.zip" then ("pages", ".zip") else (p, "");
  path_join := fun a b => a ++ "/" ++ b;
  walk := fun p => if String.eqb p "book"
                   then [("book", [], ["page_2.svg"; "notes.txt"; "page_1.svg"; "cover.svg"])]
                   else if String.eqb p "empty" then [("empty", [], [])]
                   else [];
  read_file := demo_read;
  is_zipfile := fun p => String.eqb p "pages.zip";
  zip_namelist := fun p => if String.eqb p "pages.zip"
                           then Some ["p10.SVG"; "readme.md"; "intro.svg"] else None;
  zip_read := demo_zip_read;
  re_valid := fun p => negb (String.eqb p "(");
  findall := demo_findall;
  int_max_str_digits := 4300;
  Drawing := bytes;
  svg2rlg := fun data => if String.prefix "<svg" data then Return data else Raise SvgError;
  drawToString := fun d => Return ("%PDF " ++ d);
  merger_append := fun pdf => if String.prefix "%PDF" pdf then Return tt else Raise PdfReadError;
  can_write := fun _ => true
|}.

Definition empty_store : store := mkStore [] [] [] [].

(** Two results with the same page index, collected in the order [b], [a]. *)
Definition tied_results : store :=
  mkStore [] [(0, "%PDF b"); (0, "%PDF a")] [] [].

(** A result list with one blob the merger rejects and one blank page. *)
Definition mixed_results : store :=
  mkStore [] [(3, "%PDF three"); (2, "corrupt"); (1, BLANK_PDF_PAGE)] [] [].

(** Two tasks in the queue, nothing converted yet. *)
Definition two_tasks : store :=
  mkStore [(2, "<svg>two</svg>"); (1, "not an image")] [] [] [].

(** Two workers interleaved; the first pull of worker 0 sees the empty
    signal although both tasks are queued, so worker 1 takes the first
    task and publishes last. *)
Definition interleaving : list (nat * bool) :=
  [ (0, false); (1, false); (0, false); (1, false); (0, true); (1, false);
    (0, false); (0, false); (0, false); (0, false); (1, false); (1, false);
    (0, false) ]%nat.

Definition final_job : job :=
  mkJob (mkStore []
           [(1, BLANK_PDF_PAGE); (2, "%PDF <svg>two</svg>")]
           [Progress 0 2; Progress 0 2; Progress 1 2; ConvertError SvgError;
            ProgressCleared 1 2; ProgressCleared 0 2]
           [])
        [Exited; Exited].

End Demo.

(** Another complete run of two workers on three tasks: the workers take
    the first two tasks side by side, worker 0 publishes before worker 1,
    then worker 0 takes the third. *)
Module Runs.

Definition side_by_side : list (nat * bool) :=
  [ (1, false); (0, false); (1, false); (0, false); (1, false); (0, false);
    (0, false); (1, false);
    (0, false); (0, false); (0, false); (0, false);
    (1, false); (0, false) ]%nat.

End Runs.

(** The same platform with an output directory that cannot be written. *)
Module ReadOnly.

Definition read_only : Platform := {|
  isdir := @isdir Demo.demo;
  basename := @basename Demo.demo;
  splitext := @splitext Demo.demo;
  path_join := @path_join Demo.demo;
  walk := @walk Demo.demo;
  read_file := @read_file Demo.demo;
  is_zipfile := @is_zipfile Demo.demo;
  zip_namelist := @zip_namelist Demo.demo;
  zip_read := @zip_read Demo.demo;
  re_valid := @re_valid Demo.demo;
  findall := @findall Demo.demo;
  int_max_str_digits := @int_max_str_digits Demo.demo;
  Drawing := bytes;
  svg2rlg := @svg2rlg Demo.demo;
  drawToString := @drawToString Demo.demo;
  merger_append := @merger_append Demo.demo;
  can_write := fun _ => false
|}.

End ReadOnly.

(** * Properties *)

(** ** The order [list.sort()] uses on results *)

Lemma bytes_lt_irrefl (a : bytes) : bytes_lt a a = false.
Proof.
  induction a as [|c a IH]; simpl; [reflexivity|].
  now rewrite Ascii.eqb_refl.
Qed.

Lemma N_of_ascii_inj (x y : ascii) : N_of_ascii x = N_of_ascii y -> x = y.
Proof.
  intros H. rewrite <- (ascii_N_embedding x), <- (ascii_N_embedding y).
  now rewrite H.
Qed.

Lemma bytes_lt_connex (a b : bytes) :
  bytes_lt a b = false -> bytes_lt b a = false -> a = b.
Proof.
  revert b. induction a as [|x a IH]; intros [|y b]; simpl; try congruence.
  rewrite (Ascii.eqb_sym y x).
  destruct (Ascii.eqb_spec x y) as [->|Hxy].
  - intros H1 H2. f_equal. now apply IH.
  - intros H1 H2. exfalso. apply Hxy, N_of_ascii_inj.
    apply N.ltb_ge in H1, H2. lia.
Qed.

Lemma bytes_lt_trans (a b c : bytes) :
  bytes_lt a b = true -> bytes_lt b c = true -> bytes_lt a c = true.
Proof.
  revert b c. induction a as [|x a IH]; intros [|y b] [|z c]; simpl;
    try congruence.
  destruct (Ascii.eqb_spec x y) as [->|Hxy].
  - destruct (Ascii.eqb_spec y z) as [->|Hyz]; [apply IH | trivial].
  - destruct (Ascii.eqb_spec y z) as [->|Hyz].
    + destruct (Ascii.eqb_spec x z); congruence.
    + intros H1 H2. apply N.ltb_lt in H1, H2.
      destruct (Ascii.eqb_spec x z) as [->|Hxz]; [lia|].
      apply N.ltb_lt. lia.
Qed.

Lemma tuple_lt_irrefl (a : Z * bytes) : tuple_lt a a = false.
Proof. unfold tuple_lt. rewrite Z.eqb_refl. apply bytes_lt_irrefl. Qed.

Lemma tuple_lt_connex (a b : Z * bytes) :
  tuple_lt a b = false -> tuple_lt b a = false -> a = b.
Proof.
  destruct a as [i x], b as [j y]. unfold tuple_lt. simpl.
  rewrite (Z.eqb_sym j i).
  destruct (Z.eqb_spec i j) as [->|Hij].
  - intros H1 H2. f_equal. now apply bytes_lt_connex.
  - intros H1 H2. apply Z.ltb_ge in H1, H2. lia.
Qed.

Lemma tuple_lt_trans (a b c : Z * bytes) :
  tuple_lt a b = true -> tuple_lt b c = true -> tuple_lt a c = true.
Proof.
  destruct a as [i x], b as [j y], c as [k z]. unfold tuple_lt. simpl.
  destruct (Z.eqb_spec i j) as [->|Hij]; destruct (Z.eqb_spec j k) as [->|Hjk].
  - apply bytes_lt_trans.
  - trivial.
  - destruct (Z.eqb_spec i k); [congruence | trivial].
  - intros H1 H2. apply Z.ltb_lt in H1, H2.
    destruct (Z.eqb_spec i k); [lia | apply Z.ltb_lt; lia].
Qed.

Lemma tuple_lt_asym (a b : Z * bytes) :
  tuple_lt a b = true -> tuple_lt b a = false.
Proof.
  intros H. destruct (tuple_lt b a) eqn:E; [|reflexivity].
  rewrite <- (tuple_lt_irrefl a). symmetry. now apply tuple_lt_trans with b.
Qed.

Lemma tuple_le_trans (a b c : Z * bytes) :
  tuple_le a b -> tuple_le b c -> tuple_le a c.
Proof.
  unfold tuple_le. intros Hab Hbc.
  destruct (tuple_lt c a) eqn:Hca; [|reflexivity].
  destruct (tuple_lt a b) eqn:E1.
  - rewrite <- Hbc. symmetry. now apply tuple_lt_trans with a.
  - assert (a = b) by now apply tuple_lt_connex. subst. congruence.
Qed.

Lemma tuple_le_antisym (a b : Z * bytes) :
  tuple_le a b -> tuple_le b a -> a = b.
Proof. unfold tuple_le. intros H1 H2. now apply tuple_lt_connex. Qed.

(** A tuple that is not after another has a page index that is not after. *)
Lemma tuple_le_fst (a b : Z * bytes) : tuple_le a b -> fst a <= fst b.
Proof.
  unfold tuple_le, tuple_lt.
  destruct (Z.eqb_spec (fst b) (fst a)); [lia|].
  intros H. apply Z.ltb_ge in H. lia.
Qed.

(** ** [list.sort()] *)

Lemma insert_sorted_perm (x : Z * bytes) (l : list (Z * bytes)) :
  Permutation (insert_sorted x l) (x :: l).
Proof.
  induction l as [|y l IH]; simpl; [reflexivity|].
  destruct (tuple_lt y x); [|reflexivity].
  rewrite IH. apply perm_swap.
Qed.

Lemma list_sort_perm (l : list (Z * bytes)) : Permutation (list_sort l) l.
Proof.
  induction l as [|x l IH]; simpl; [reflexivity|].
  rewrite insert_sorted_perm. now constructor.
Qed.

Lemma insert_sorted_sorted (x : Z * bytes) (l : list (Z * bytes)) :
  StronglySorted tuple_le l -> StronglySorted tuple_le (insert_sorted x l).
Proof.
  induction 1 as [|y l Hs IH Hy]; simpl.
  - repeat constructor.
  - destruct (tuple_lt y x) eqn:E.
    + constructor; [assumption|].
      apply (Permutation_Forall (Permutation_sym (insert_sorted_perm x l))).
      constructor; [now apply tuple_lt_asym | assumption].
    + constructor; [now constructor|].
      constructor; [exact E|].
      eapply Forall_impl; [|exact Hy].
      intros z Hz. now apply tuple_le_trans with y.
Qed.

Lemma list_sort_sorted (l : list (Z * bytes)) : StronglySorted tuple_le (list_sort l).
Proof.
  induction l as [|x l IH]; simpl; [constructor|].
  now apply insert_sorted_sorted.
Qed.

Lemma sorted_perm_unique (l1 l2 : list (Z * bytes)) :
  StronglySorted tuple_le l1 -> StronglySorted tuple_le l2 ->
  Permutation l1 l2 -> l1 = l2.
Proof.
  intros H1. revert l2. induction H1 as [|a l1 Hs1 IH Ha]; intros l2 H2 Hp.
  - now apply Permutation_nil in Hp.
  - destruct H2 as [|b l2 Hs2 Hb].
    + symmetry in Hp. now apply Permutation_nil in Hp.
    + assert (a = b) as ->.
      { assert (In a (b :: l2)) as Hin1
          by (apply (Permutation_in _ Hp); now left).
        assert (In b (a :: l1)) as Hin2
          by (apply (Permutation_in _ (Permutation_sym Hp)); now left).
        destruct Hin1 as [->|Hin1]; [reflexivity|].
        destruct Hin2 as [->|Hin2]; [reflexivity|].
        rewrite Forall_forall in Ha, Hb.
        apply tuple_le_antisym; auto. }
      f_equal. apply IH; [assumption|]. now apply Permutation_cons_inv in Hp.
Qed.

(** The sorted list depends on the collected results as a multiset only. *)
Lemma list_sort_order_independent (l1 l2 : list (Z * bytes)) :
  Permutation l1 l2 -> list_sort l1 = list_sort l2.
Proof.
  intros Hp. apply sorted_perm_unique; try apply list_sort_sorted.
  rewrite !list_sort_perm. exact Hp.
Qed.

Lemma StronglySorted_filter {A} (R : A -> A -> Prop) (f : A -> bool) (l : list A) :
  StronglySorted R l -> StronglySorted R (filter f l).
Proof.
  induction 1 as [|a l Hs IH Ha]; simpl; [constructor|].
  destruct (f a); [|assumption].
  constructor; [assumption|].
  rewrite Forall_forall in *. intros x Hx. apply Ha.
  now apply filter_In in Hx.
Qed.

Lemma StronglySorted_adjacent {A} (R : A -> A -> Prop) (before after : list A) (a b : A) :
  StronglySorted R (before ++ a :: b :: after) -> R a b.
Proof.
  induction before as [|x before IH]; simpl; intros H; inversion H; subst.
  - match goal with Hf : Forall _ (b :: after) |- _ => now inversion Hf end.
  - auto.
Qed.

Lemma StronglySorted_map_fst (l : list (Z * bytes)) :
  StronglySorted tuple_le l -> StronglySorted Z.le (map fst l).
Proof.
  induction 1 as [|a l Hs IH Ha]; simpl; constructor; [assumption|].
  rewrite Forall_forall in *. intros i Hi.
  apply in_map_iff in Hi. destruct Hi as [b [<- Hb]].
  now apply tuple_le_fst, Ha.
Qed.

(** ** [write_pdf] *)

Section WritePdfFacts.

Context {P : Platform}.

Lemma merge_pages_spec (l : list result) :
  forall (merger : list bytes) (error_page : list Z) (st : store),
    fold_m merge_page l (merger, error_page) st =
    (Return ((merger ++ map snd (appended l))%list, (error_page ++ error_pages l)%list),
     mkStore (svg_queue st) (output_list st) (stdout st ++ merger_log l) (written st)).
Proof.
  induction l as [|[i pdf] l IH]; intros merger error_page st.
  - simpl. unfold ret, error_pages. simpl. rewrite !app_nil_r. now destruct st.
  - cbn [fold_m]. unfold bind at 1. unfold merge_page, try_except, bind, lift.
    unfold appended, error_pages, is_error_page, accepts in *.
    cbn [filter map snd fst merger_log].
    destruct (merger_append pdf) as [[]|e]; cbn [negb orb].
    + destruct (String.eqb pdf BLANK_PDF_PAGE); unfold ret; rewrite IH;
        cbn [map]; rewrite <- ?app_assoc; reflexivity.
    + unfold print, ret. rewrite IH. cbn [svg_queue output_list stdout written map].
      rewrite <- !app_assoc. reflexivity.
Qed.

Lemma summary_cases (file_name : str) (l : list result) :
  (error_pages l = [] /\ summary file_name l = CreatedOk file_name (List.length l)) \/
  (error_pages l <> [] /\
   summary file_name l =
   CreatedWithErrors file_name (List.length l) (List.length (error_pages l)) (error_pages l)).
Proof.
  unfold summary. destruct (error_pages l); [left | right]; split; congruence.
Qed.

(** What [write_pdf] does on a non-empty result list when the output path
    can be written. *)
Lemma write_pdf_nonempty (file_name : str) (st : store) :
  output_list st <> [] -> can_write file_name = true ->
  let sorted := list_sort (output_list st) in
  write_pdf file_name st =
  (Return tt,
   mkStore (svg_queue st) sorted
           (stdout st ++ merger_log sorted ++ [summary file_name sorted])
           (written st ++ [(file_name, map snd (appended sorted))])).
Proof.
  intros Hne Hw sorted. unfold write_pdf.
  destruct (output_list st) as [|r l] eqn:E; [congruence|].
  unfold bind at 1. unfold sort_output. rewrite E. fold sorted.
  unfold bind at 1. rewrite merge_pages_spec.
  cbn [svg_queue output_list stdout written app].
  unfold bind, merger_write. rewrite Hw.
  cbn [svg_queue output_list stdout written].
  unfold summary. destruct (error_pages sorted); unfold print;
    cbn [svg_queue output_list stdout written]; rewrite <- app_assoc; reflexivity.
Qed.

Lemma in_error_pages (i : Z) (l : list result) :
  In i (error_pages l) <->
  exists pdf, In (i, pdf) l /\ (pdf = BLANK_PDF_PAGE \/ accepts pdf = false).
Proof.
  unfold error_pages, is_error_page. rewrite in_map_iff. split.
  - intros [[j pdf] [Hj Hin]]. simpl in Hj. subst j.
    apply filter_In in Hin. destruct Hin as [Hin Hc]. simpl in Hc.
    exists pdf. split; [assumption|].
    apply orb_true_iff in Hc. destruct Hc as [Hc|Hc].
    + right. now apply negb_true_iff.
    + left. now apply String.eqb_eq.
  - intros [pdf [Hin Hc]]. exists (i, pdf). split; [reflexivity|].
    apply filter_In. split; [assumption|]. simpl.
    apply orb_true_iff. destruct Hc as [->|Hc].
    + right. apply String.eqb_refl.
    + left. now apply negb_true_iff.
Qed.

End WritePdfFacts.

Section Assembly.

Context {P : Platform}.

Lemma in_merger_log (i : Z) (pdf : bytes) (e : exn) (l : list result) :
  In (i, pdf) l -> merger_append pdf = Raise e -> In (MergerError i e) (merger_log l).
Proof.
  intros Hin He. induction l as [|[j q] l IH]; [contradiction|].
  simpl. destruct Hin as [Heq|Hin].
  - inversion Heq; subst. rewrite He. now left.
  - destruct (merger_append q); [auto | right; auto].
Qed.

(** C1 (amended): on a non-empty result list, [write_pdf] hands the merger
    the accepted pages in ascending order of page index; results with the
    same page index follow each other in ascending order of their bytes,
    because the sort compares the whole tuples.  The document is therefore
    the same for every order in which the same results were collected. *)
Theorem write_pdf_page_order (file_name : str) (st : store) :
  output_list st <> [] -> can_write file_name = true ->
  exists (sorted pages : list result) (st' : store),
    write_pdf file_name st = (Return tt, st') /\
    Permutation sorted (output_list st) /\
    pages = filter (fun r => accepts (snd r)) sorted /\
    written st' = (written st ++ [(file_name, map snd pages)])%list /\
    StronglySorted Z.le (map fst pages) /\
    StronglySorted tuple_le pages /\
    (forall (before after : list result) (a b : result),
        pages = (before ++ a :: b :: after)%list -> fst a = fst b ->
        bytes_lt (snd b) (snd a) = false) /\
    (forall st2 : store,
        Permutation (output_list st2) (output_list st) ->
        written st2 = written st ->
        written (snd (write_pdf file_name st2)) = written st').
Proof.
  intros Hne Hw.
  exists (list_sort (output_list st)), (appended (list_sort (output_list st))).
  eexists. split; [now apply write_pdf_nonempty|].
  cbn [written].
  assert (StronglySorted tuple_le (appended (list_sort (output_list st)))) as Hs
    by apply StronglySorted_filter, list_sort_sorted.
  split; [apply list_sort_perm|]. split; [reflexivity|]. split; [reflexivity|].
  split; [now apply StronglySorted_map_fst|]. split; [exact Hs|]. split.
  - intros before after a b Hpages Hab. rewrite Hpages in Hs.
    apply StronglySorted_adjacent in Hs. unfold tuple_le, tuple_lt in Hs.
    rewrite Hab, Z.eqb_refl in Hs. exact Hs.
  - intros st2 Hp Hwr.
    rewrite write_pdf_nonempty; [|intros E; rewrite E in Hp;
      apply Permutation_nil in Hp; congruence | assumption].
    cbn [snd written]. rewrite Hwr.
    now rewrite (list_sort_order_independent _ _ Hp).
Qed.

(** C5: when the merger fails on the bytes of a page, [write_pdf] still
    returns normally; the page's index is in the list of replaced pages of
    the final report, the failure is logged, and every blob the merger
    accepts, before or after the failing one, is in the written document. *)
Theorem write_pdf_survives_page_failure
    (file_name : str) (st : store) (i : Z) (pdf : bytes) (e : exn) :
  In (i, pdf) (output_list st) ->
  merger_append pdf = Raise e ->
  can_write file_name = true ->
  exists (st' : store) (log : list out_line) (error_page : list Z) (merged : list bytes),
    write_pdf file_name st = (Return tt, st') /\
    stdout st' =
      (stdout st ++ log ++
       [CreatedWithErrors file_name (List.length (output_list st))
                          (List.length error_page) error_page])%list /\
    In i error_page /\
    In (MergerError i e) log /\
    written st' = (written st ++ [(file_name, merged)])%list /\
    (forall (j : Z) (p : bytes),
        In (j, p) (output_list st) -> accepts p = true -> In p merged).
Proof.
  intros Hin He Hw.
  assert (output_list st <> []) as Hne by (intros E; now rewrite E in Hin).
  set (sorted := list_sort (output_list st)).
  assert (Permutation sorted (output_list st)) as Hp by apply list_sort_perm.
  assert (@List.length result sorted = List.length (output_list st)) as Hlen
    by apply (Permutation_length Hp).
  assert (In (i, pdf) sorted) as Hin'
    by now apply (Permutation_in _ (Permutation_sym Hp)).
  assert (In i (error_pages sorted)) as Hi.
  { apply in_error_pages. exists pdf. split; [assumption|].
    right. unfold accepts. now rewrite He. }
  exists (mkStore (svg_queue st) sorted
            (stdout st ++ merger_log sorted ++ [summary file_name sorted])
            (written st ++ [(file_name, map snd (appended sorted))])),
         (merger_log sorted), (error_pages sorted), (map snd (appended sorted)).
  split; [now apply write_pdf_nonempty|].
  cbn [stdout written]. repeat split.
  - destruct (summary_cases file_name sorted) as [[E _]|[_ ->]].
    + rewrite E in Hi. contradiction.
    + now rewrite Hlen.
  - exact Hi.
  - now apply in_merger_log with pdf.
  - intros j p Hj Hacc. apply in_map_iff. exists (j, p). split; [reflexivity|].
    apply filter_In. split; [|exact Hacc].
    now apply (Permutation_in _ (Permutation_sym Hp)).
Qed.

(** C10: a result is a pair of a page index and bytes, nothing more, and the
    list of replaced pages that [write_pdf] reports holds exactly the
    indices of the results whose bytes equal [BLANK_PDF_PAGE] or are
    refused by the merger.  A worker whose rendering succeeds with exactly
    these bytes publishes the result a failed rendering gives, so its page
    is reported too. *)
Theorem write_pdf_reports_blank_bytes (file_name : str) (st : store) :
  output_list st <> [] -> can_write file_name = true ->
  exists (st' : store) (log : list out_line) (error_page : list Z),
    write_pdf file_name st = (Return tt, st') /\
    (forall i : Z,
        In i error_page <->
        exists pdf : bytes,
          In (i, pdf) (output_list st) /\
          (pdf = BLANK_PDF_PAGE \/ accepts pdf = false)) /\
    (forall (i : Z) (pdf : bytes),
        In (i, pdf) (output_list st) -> pdf = BLANK_PDF_PAGE -> In i error_page) /\
    (error_page <> [] ->
     stdout st' =
       (stdout st ++ log ++
        [CreatedWithErrors file_name (List.length (output_list st))
                           (List.length error_page) error_page])%list) /\
    (error_page = [] ->
     stdout st' =
       (stdout st ++ log ++
        [CreatedOk file_name (List.length (output_list st))])%list) /\
    (forall (i : Z) (svg_data : bytes) (drawing : Drawing),
        svg2rlg svg_data = Return drawing ->
        drawToString drawing = Return BLANK_PDF_PAGE ->
        result_of (i, svg_data) = (i, BLANK_PDF_PAGE)).
Proof.
  intros Hne Hw.
  set (sorted := list_sort (output_list st)).
  assert (Permutation sorted (output_list st)) as Hp by apply list_sort_perm.
  assert (@List.length result sorted = List.length (output_list st)) as Hlen
    by apply (Permutation_length Hp).
  assert (forall i : Z,
             In i (error_pages sorted) <->
             exists pdf : bytes,
               In (i, pdf) (output_list st) /\
               (pdf = BLANK_PDF_PAGE \/ accepts pdf = false)) as Hchar.
  { intros i. rewrite in_error_pages. split; intros [pdf [Hin Hc]]; exists pdf;
      (split; [|exact Hc]).
    - now apply (Permutation_in _ Hp).
    - now apply (Permutation_in _ (Permutation_sym Hp)). }
  eexists. exists (merger_log sorted), (error_pages sorted).
  split; [now apply write_pdf_nonempty|].
  cbn [stdout]. fold sorted. repeat split.
  - apply Hchar.
  - apply Hchar.
  - intros i pdf Hin ->. apply Hchar. exists BLANK_PDF_PAGE. auto.
  - intros Herr. destruct (summary_cases file_name sorted) as [[E _]|[_ ->]];
      [congruence|]. now rewrite Hlen.
  - intros Herr. unfold summary. rewrite Herr.
    now rewrite Hlen.
  - intros i svg_data drawing H1 H2. unfold result_of, rendered. simpl.
    now rewrite H1, H2.
Qed.

End Assembly.

(** ** Exceptions and effects of monadic code *)

Lemma raises_only_bind {A B} (ok : exn -> Prop) (m : M A) (k : A -> M B) :
  raises_only ok m -> (forall a, raises_only ok (k a)) -> raises_only ok (bind m k).
Proof.
  intros Hm Hk st st' e. unfold bind.
  destruct (m st) as [[a|e1] st1] eqn:E.
  - apply Hk.
  - intros H. inversion H; subst. eapply Hm, E.
Qed.

Lemma raises_only_ret {A} (ok : exn -> Prop) (a : A) : raises_only ok (ret a).
Proof. intros st st' e H. discriminate H. Qed.

Lemma raises_only_lift {A} (ok : exn -> Prop) (o : outcome A) :
  (forall e, o = Raise e -> ok e) -> raises_only ok (lift o).
Proof. intros Ho st st' e H. inversion H. auto. Qed.

Lemma raises_only_for_each {A} (ok : exn -> Prop) (l : list A) (body : A -> M unit) :
  (forall x, raises_only ok (body x)) -> raises_only ok (for_each l body).
Proof.
  intros Hb. induction l as [|x l IH]; simpl.
  - apply raises_only_ret.
  - apply raises_only_bind; auto.
Qed.

Lemma always_raises_for_each {A} (l : list A) (body : A -> M unit) (x : A) :
  In x l -> always_raises (body x) -> always_raises (for_each l body).
Proof.
  intros Hin Hx. induction l as [|y l IH]; [contradiction|].
  intros st. simpl. unfold bind.
  destruct (body y st) as [[[]|e] st1] eqn:E.
  - destruct Hin as [->|Hin].
    + destruct (Hx st) as [e [st' H]]. congruence.
    + apply IH, Hin.
  - eauto.
Qed.

Lemma frame_bind {A B} (m : M A) (k : A -> M B) :
  frame m -> (forall a, frame (k a)) -> frame (bind m k).
Proof.
  intros Hm Hk st. unfold bind. specialize (Hm st).
  destruct (m st) as [[a|e] st1]; simpl in Hm.
  - destruct (Hk a st1) as [H1 H2]. destruct Hm. split; congruence.
  - exact Hm.
Qed.

Lemma frame_ret {A} (a : A) : frame (ret a).
Proof. intros st. now split. Qed.

Lemma frame_raise {A} (e : exn) : frame (@raise A e).
Proof. intros st. now split. Qed.

Lemma frame_lift {A} (o : outcome A) : frame (lift o).
Proof. intros st. now split. Qed.

Lemma frame_print (line : out_line) : frame (print line).
Proof. intros st. now split. Qed.

Lemma frame_queue_put (t : task) : frame (queue_put t).
Proof. intros st. now split. Qed.

Lemma frame_qsize : frame qsize.
Proof. intros st. now split. Qed.

Lemma frame_try_except {A} (body : M A) (handler : exn -> M A) :
  frame body -> (forall e, frame (handler e)) -> frame (try_except body handler).
Proof.
  intros Hb Hh st. unfold try_except. specialize (Hb st).
  destruct (body st) as [[a|e] st1]; simpl in Hb.
  - exact Hb.
  - destruct (Hh e st1) as [H1 H2]. destruct Hb. split; congruence.
Qed.

Lemma frame_for_each {A} (l : list A) (body : A -> M unit) :
  (forall x, frame (body x)) -> frame (for_each l body).
Proof.
  intros Hb. induction l as [|x l IH]; simpl.
  - apply frame_ret.
  - apply frame_bind; auto.
Qed.

Create HintDb frame.
Create HintDb raises.
#[local] Hint Resolve frame_bind frame_ret frame_raise frame_lift frame_print
  frame_queue_put frame_qsize frame_try_except frame_for_each : frame.
#[local] Hint Resolve raises_only_bind raises_only_ret raises_only_for_each : raises.

(** ** [process_files] and [page_number] *)

Section Enumeration.

Context {P : Platform}.

Lemma last_item_snoc {A} (l : list A) (x : A) : last_item (l ++ [x]) = Return x.
Proof. unfold last_item. now rewrite rev_unit. Qed.

Lemma page_number_match (file_name pattern : str) (before : list match_item)
    (m : match_item) (st : store) :
  findall pattern file_name = (before ++ [m])%list ->
  page_number file_name pattern st = (int m, st).
Proof.
  intros H. unfold page_number, try_except, bind, lift.
  rewrite H, last_item_snoc.
  destruct m as [s|g]; simpl; [destruct (int_of_str s)|]; reflexivity.
Qed.

Lemma page_number_no_match (file_name pattern : str) (st : store) :
  findall pattern file_name = [] ->
  page_number file_name pattern st =
  (Return 0, mkStore (svg_queue st) (output_list st)
                     (stdout st ++ [IndexWarning file_name pattern]) (written st)).
Proof.
  intros H. unfold page_number, try_except, bind, lift. now rewrite H.
Qed.

Lemma int_not_input_error (m : match_item) : int m <> Raise InputError.
Proof.
  destruct m as [s|g]; simpl; [destruct (int_of_str s)|]; discriminate.
Qed.

Lemma page_number_raises (file_name pattern : str) :
  raises_only (fun e => e <> InputError) (page_number file_name pattern).
Proof.
  intros st st' e. unfold page_number, try_except, bind, lift, last_item.
  destruct (rev (findall pattern file_name)) as [|m l].
  - intros H. discriminate H.
  - pose proof (int_not_input_error m) as Hm.
    destruct (int m) as [n|e2]; [intros H; discriminate H|].
    destruct e2; intros H; inversion H; subst; congruence.
Qed.

Lemma frame_page_number (file_name pattern : str) :
  frame (page_number file_name pattern).
Proof.
  unfold page_number. apply frame_try_except; auto with frame.
  intros []; auto with frame.
Qed.

Lemma of_option_raises {A} (o : option A) (e0 : exn) (ok : exn -> Prop) :
  ok e0 -> raises_only ok (lift (of_option o e0)).
Proof.
  intros H. apply raises_only_lift. destruct o; simpl; [discriminate|].
  intros e He. now inversion He; subst.
Qed.

Lemma dir_file_raises (root pattern file : str) :
  raises_only (fun e => e <> InputError) (dir_file root pattern file).
Proof.
  unfold dir_file. destruct (endswith file ".svg"); auto with raises.
  apply raises_only_bind; [apply of_option_raises; discriminate|].
  intros data. apply raises_only_bind; [apply page_number_raises|].
  intros n st st' e H. discriminate H.
Qed.

Lemma zip_member_raises (path pattern file : str) :
  raises_only (fun e => e <> InputError) (zip_member path pattern file).
Proof.
  unfold zip_member. destruct (endswith (lower file) ".svg"); auto with raises.
  apply raises_only_bind; [apply page_number_raises|].
  intros n. apply raises_only_bind; [apply of_option_raises; discriminate|].
  intros data st st' e H. discriminate H.
Qed.

Lemma frame_dir_file (root pattern file : str) : frame (dir_file root pattern file).
Proof.
  unfold dir_file. destruct (endswith file ".svg"); auto with frame.
  apply frame_bind; auto with frame. intros data.
  apply frame_bind; [apply frame_page_number | auto with frame].
Qed.

Lemma frame_zip_member (path pattern file : str) : frame (zip_member path pattern file).
Proof.
  unfold zip_member. destruct (endswith (lower file) ".svg"); auto with frame.
  apply frame_bind; [apply frame_page_number|]. intros n.
  apply frame_bind; auto with frame.
Qed.

Lemma frame_process_files (path : str) (pattern : option str) :
  frame (process_files path pattern).
Proof.
  unfold process_files. apply frame_bind; auto with frame. intros pat.
  destruct (isdir path); [|destruct (is_zipfile path)]; auto with frame.
  - apply frame_bind; auto with frame.
    apply frame_for_each. intros [[root dirs] files].
    apply frame_for_each. intros file. apply frame_dir_file.
  - apply frame_bind; auto with frame. intros names.
    apply frame_bind; auto with frame.
    apply frame_for_each. intros file. apply frame_zip_member.
Qed.

End Enumeration.

Section EnumerationClaims.

Context {P : Platform}.

Lemma main_aborts (path : str) (pattern : option str) (number_of_CPUs : nat)
    (schedule : list (nat * bool)) (st : store) (e : exn) (st1 : store) :
  process_files path pattern (mkStore [] [] (stdout st) (written st)) = (Raise e, st1) ->
  main path pattern number_of_CPUs schedule st = Some (Raise e, st1) /\
  output_list st1 = [] /\ written st1 = written st.
Proof.
  intros H. unfold main. rewrite H. split; [reflexivity|].
  destruct (frame_process_files path pattern (mkStore [] [] (stdout st) (written st)))
    as [H1 H2].
  rewrite H in H1, H2. exact (conj H1 H2).
Qed.

(** C6 (amended): for a pattern that compiles, [process_files] raises the
    input error exactly when the path is neither a directory nor a zip
    archive.  It is then raised with the store untouched, and [main] ends
    with it under every schedule: no worker runs and nothing is queued,
    converted, printed or written. *)
Theorem process_files_input_error (path : str) (pattern : option str) (st : store) :
  re_valid (effective_pattern pattern) = true ->
  (fst (process_files path pattern st) = Raise InputError <->
   isdir path = false /\ is_zipfile path = false) /\
  (isdir path = false -> is_zipfile path = false ->
   process_files path pattern st = (Raise InputError, st) /\
   forall (number_of_CPUs : nat) (schedule : list (nat * bool)),
     main path pattern number_of_CPUs schedule st =
     Some (Raise InputError, mkStore [] [] (stdout st) (written st))).
Proof.
  intros Hv.
  assert (forall st0, isdir path = false -> is_zipfile path = false ->
            process_files path pattern st0 = (Raise InputError, st0)) as Hraise.
  { intros st0 Hd Hz. unfold process_files, bind, lift, re_compile.
    now rewrite Hv, Hd, Hz. }
  split.
  - split.
    + intros H. unfold process_files in H. unfold bind at 1 in H.
      unfold lift, re_compile in H. rewrite Hv in H.
      destruct (isdir path) eqn:Hd; [|destruct (is_zipfile path) eqn:Hz].
      * exfalso.
        match type of H with fst (?m st) = _ =>
          assert (raises_only (fun e => e <> InputError) m) as Hr end.
        { apply raises_only_bind.
          - apply raises_only_for_each. intros [[root dirs] files].
            apply raises_only_for_each. intros file. apply dir_file_raises.
          - intros _. apply raises_only_bind; [|intros n; apply raises_only_ret].
            intros s0 s1 e He. discriminate He. }
        match type of H with fst ?r = _ => destruct r as [o st'] eqn:E end.
        simpl in H. subst o. now apply (Hr _ _ _ E).
      * exfalso.
        match type of H with fst (?m st) = _ =>
          assert (raises_only (fun e => e <> InputError) m) as Hr end.
        { apply raises_only_bind; [apply of_option_raises; discriminate|].
          intros names. apply raises_only_bind.
          - apply raises_only_for_each. intros file. apply zip_member_raises.
          - intros _. apply raises_only_bind; [|intros n; apply raises_only_ret].
            intros s0 s1 e He. discriminate He. }
        match type of H with fst ?r = _ => destruct r as [o st'] eqn:E end.
        simpl in H. subst o. now apply (Hr _ _ _ E).
      * now split.
    + intros [Hd Hz]. now rewrite Hraise.
  - intros Hd Hz. split; [now apply Hraise|].
    intros n schedule. now apply main_aborts, Hraise.
Qed.

(** C7: the page index [page_number] returns is [int] of the last element
    of [re.findall(pattern, file_name)].  When there is no match it returns
    0 and prints the warning, and the loop of [process_files] goes on: the
    file is queued as page 0. *)
Theorem page_number_last_match (file_name pattern : str) (st : store) :
  let warned :=
    mkStore (svg_queue st) (output_list st)
            (stdout st ++ [IndexWarning file_name pattern]) (written st) in
  (forall (before : list match_item) (m : match_item),
      findall pattern file_name = (before ++ [m])%list ->
      page_number file_name pattern st = (int m, st)) /\
  (forall (before : list match_item) (s : str) (n : Z),
      findall pattern file_name = (before ++ [MStr s])%list ->
      int_of_str s = Some n ->
      page_number file_name pattern st = (Return n, st)) /\
  (findall pattern file_name = [] ->
   page_number file_name pattern st = (Return 0, warned) /\
   (forall (root : str) (svg_data : bytes),
       endswith file_name ".svg" = true ->
       read_file (path_join root file_name) = Some svg_data ->
       dir_file root pattern file_name st = queue_put (0, svg_data) warned) /\
   (forall (path : str) (data : bytes),
       endswith (lower file_name) ".svg" = true ->
       zip_read path file_name = Some data ->
       zip_member path pattern file_name st = queue_put (0, data) warned)).
Proof.
  intros warned. split; [|split].
  - intros before m H. now apply page_number_match with before.
  - intros before s n H Hn. rewrite (page_number_match _ _ _ _ _ H).
    simpl. now rewrite Hn.
  - intros H. split; [now apply page_number_no_match|]. split.
    + intros root svg_data He Hr. unfold dir_file. rewrite He.
      unfold bind at 1. unfold lift. rewrite Hr. simpl.
      unfold bind. now rewrite page_number_no_match.
    + intros path data He Hr. unfold zip_member. rewrite He.
      unfold bind at 1. rewrite page_number_no_match by assumption.
      unfold bind, lift. now rewrite Hr.
Qed.

(** C9: when the last match is a string [int] does not accept,
    [page_number] lets the [ValueError] through (its handler names
    [IndexError] only).  If the file is one that [process_files] reads,
    [process_files] ends with an exception, and so does [main], under every
    schedule, before any worker runs: no result, no document. *)
Theorem page_number_value_error_aborts
    (path : str) (pattern : option str) (file_name : str)
    (before : list match_item) (s : str) (st : store) :
  re_valid (effective_pattern pattern) = true ->
  findall (effective_pattern pattern) file_name = (before ++ [MStr s])%list ->
  int_of_str s = None ->
  page_number file_name (effective_pattern pattern) st = (Raise ValueError, st) /\
  (enumerated path file_name ->
   (exists (e : exn) (st' : store), process_files path pattern st = (Raise e, st')) /\
   (forall (number_of_CPUs : nat) (schedule : list (nat * bool)),
       exists (e : exn) (st' : store),
         main path pattern number_of_CPUs schedule st = Some (Raise e, st') /\
         output_list st' = [] /\ written st' = written st)).
Proof.
  intros Hv Hf Hs.
  assert (forall st0, page_number file_name (effective_pattern pattern) st0 =
                      (Raise ValueError, st0)) as Hpn.
  { intros st0. rewrite (page_number_match _ _ _ _ _ Hf). simpl. now rewrite Hs. }
  split; [apply Hpn|].
  intros Hen.
  assert (always_raises (process_files path pattern)) as Hall.
  { intros st0. unfold process_files. unfold bind at 1.
    unfold lift, re_compile. rewrite Hv.
    destruct Hen as [[Hd [root [dirs [files [Hw [Hin He]]]]]]
                    |[Hd [Hz [names [Hn [Hin He]]]]]].
    - rewrite Hd. unfold bind at 1.
      assert (always_raises (for_each (walk path)
                (fun '(root, _, files) =>
                   for_each files (dir_file root (effective_pattern pattern)))))
        as Hloop.
      { apply always_raises_for_each with (root, dirs, files); [assumption|].
        apply always_raises_for_each with file_name; [assumption|].
        intros st1. unfold dir_file. rewrite He. unfold bind at 1. unfold lift.
        destruct (read_file (path_join root file_name)); simpl; [|eauto].
        unfold bind. rewrite Hpn. eauto. }
      destruct (Hloop st0) as [e [st' ->]]. eauto.
    - rewrite Hd, Hz. unfold bind at 1. unfold lift. rewrite Hn. simpl.
      unfold bind at 1.
      assert (always_raises (for_each names
                (zip_member path (effective_pattern pattern)))) as Hloop.
      { apply always_raises_for_each with file_name; [assumption|].
        intros st1. unfold zip_member. rewrite He. unfold bind at 1.
        rewrite Hpn. eauto. }
      destruct (Hloop st0) as [e [st' ->]]. eauto. }
  split; [apply Hall|].
  intros n schedule.
  destruct (Hall (mkStore [] [] (stdout st) (written st))) as [e [st' H]].
  exists e, st'. now apply main_aborts.
Qed.

End EnumerationClaims.

(** ** The worker and the pool *)

Section Workers.

Context {P : Platform}.

Lemma render_spec (svg_data : bytes) (st : store) :
  exists log : list out_line,
    render svg_data st =
    (Return (rendered svg_data),
     mkStore (svg_queue st) (output_list st) (stdout st ++ log) (written st)).
Proof.
  unfold render, rendered, try_except, bind, lift.
  destruct (svg2rlg svg_data) as [drawing|e].
  - destruct (drawToString drawing) as [pdf|e].
    + exists []. rewrite app_nil_r. now destruct st.
    + exists [ConvertError e]. reflexivity.
  - exists [ConvertError e]. reflexivity.
Qed.

Lemma convert_task_spec (done total : Z) (t : task) (st : store) :
  exists log : list out_line,
    convert_task done total t st =
    (Return tt,
     mkStore (svg_queue st) (output_list st ++ [result_of t])
             (stdout st ++ log) (written st)).
Proof.
  destruct t as [i svg_data]. unfold convert_task. unfold bind at 1.
  destruct (render_spec svg_data st) as [log ->].
  exists (log ++ [ProgressCleared done total])%list.
  unfold bind, output_append, print. cbn [svg_queue output_list stdout written].
  now rewrite app_assoc.
Qed.

Lemma nth_error_set_proc_other (w w' : nat) (p : pc) (l : list pc) :
  w' <> w -> nth_error (set_proc w p l) w' = nth_error l w'.
Proof.
  revert w w'. induction l as [|q l IH]; intros [|w] [|w'] H; simpl;
    try reflexivity; try congruence.
  apply IH. congruence.
Qed.

Lemma held_set_proc (w : nat) (p p' : pc) (l : list pc) :
  nth_error l w = Some p ->
  Permutation (held_by p ++ held (set_proc w p' l)) (held_by p' ++ held l).
Proof.
  revert w. induction l as [|q l IH]; intros [|w] H; simpl in H; try discriminate.
  - inversion H; subst. unfold held. simpl. apply Permutation_app_swap_app.
  - unfold held in *. simpl. rewrite !(Permutation_app_swap_app _ (held_by q)).
    apply Permutation_app_head. now apply IH.
Qed.

Lemma no_crash_set_proc (w : nat) (p : pc) (l : list pc) :
  crashed p = false -> existsb crashed l = false ->
  existsb crashed (set_proc w p l) = false.
Proof.
  intros Hp. revert w. induction l as [|q l IH]; intros [|w] H; simpl in *;
    try reflexivity; apply orb_false_iff in H; destruct H as [H1 H2];
    apply orb_false_iff; auto.
Qed.

Lemma exited_set_proc (w : nat) (p : pc) (l : list pc) :
  existsb exited (set_proc w p l) = true ->
  exited p = true \/ existsb exited l = true.
Proof.
  revert w. induction l as [|q l IH]; intros [|w] H; simpl in *;
    try discriminate; apply orb_true_iff in H; destruct H as [H|H].
  - now left.
  - right. rewrite H. apply orb_true_r.
  - right. now rewrite H.
  - destruct (IH w H) as [H1|H1]; [now left|].
    right. rewrite H1. apply orb_true_r.
Qed.

Lemma qsize_not_positive (st : store) :
  (Z.of_nat (List.length (svg_queue st)) >? 0) = false -> svg_queue st = [].
Proof.
  destruct (svg_queue st); [reflexivity|]. simpl List.length.
  intros H. rewrite Z.gtb_ltb in H. apply Z.ltb_ge in H. lia.
Qed.

(** An invariant of [job_step] is an invariant of every run. *)
Lemma run_workers_invariant (Inv : job -> Prop) (number_of_pages : Z) :
  (forall c j j', Inv j -> job_step number_of_pages c j = Some j' -> Inv j') ->
  forall schedule j j',
    Inv j -> run_workers number_of_pages schedule j = Some j' -> Inv j'.
Proof.
  intros Hstep. induction schedule as [|c schedule IH]; intros j j' Hj H; simpl in H.
  - now inversion H; subst.
  - destruct (job_step number_of_pages c j) as [j1|] eqn:E; [|discriminate].
    eapply IH; [|exact H]. eapply Hstep; eauto.
Qed.

Lemma pool_invariant_step (tasks : list task) (number_of_pages : Z)
    (c : nat * bool) (j j' : job) :
  pool_invariant tasks j -> job_step number_of_pages c j = Some j' ->
  pool_invariant tasks j'.
Proof.
  intros [Hc [Hp He]] Hstep. destruct c as [w empty_signal].
  unfold job_step in Hstep.
  destruct (nth_error (procs j) w) as [p|] eqn:Hw; [|discriminate].
  destruct (terminated p) eqn:Ht; [discriminate|].
  pose proof (held_set_proc w p) as Hheld.
  destruct p as [| |done total|done total t| |e]; simpl in Ht; try discriminate;
    simpl in Hstep; unfold bind, qsize, print, ret, try_except, get_nowait in Hstep.
  - (* the loop test *)
    destruct (Z.of_nat (List.length (svg_queue (shared j))) >? 0) eqn:Hq;
      inversion Hstep; subst; clear Hstep; unfold pool_invariant; simpl.
    + split; [now apply no_crash_set_proc|]. split.
      * specialize (Hheld AtProgress _ Hw). simpl in Hheld.
        now rewrite Hheld.
      * intros Hx. apply exited_set_proc in Hx.
        destruct Hx as [Hx|Hx]; [discriminate | auto].
    + split; [now apply no_crash_set_proc|]. split.
      * specialize (Hheld Exited _ Hw). simpl in Hheld. now rewrite Hheld.
      * intros _. now apply qsize_not_positive.
  - (* the progress line *)
    inversion Hstep; subst; clear Hstep. unfold pool_invariant; simpl.
    split; [now apply no_crash_set_proc|]. split.
    + specialize (Hheld (AtGet (number_of_pages -
          Z.of_nat (List.length (svg_queue (shared j)))) number_of_pages) _ Hw).
      simpl in Hheld. now rewrite Hheld.
    + intros Hx. apply exited_set_proc in Hx.
      destruct Hx as [Hx|Hx]; [discriminate | auto].
  - (* the pull *)
    destruct (svg_queue (shared j)) as [|t q] eqn:Hq.
    + inversion Hstep; subst; clear Hstep. unfold pool_invariant; simpl.
      split; [now apply no_crash_set_proc|]. split.
      * specialize (Hheld AtWhile _ Hw). simpl in Hheld.
        rewrite Hheld, Hq. exact Hp.
      * intros _. exact Hq.
    + destruct empty_signal; inversion Hstep; subst; clear Hstep;
        unfold pool_invariant; simpl.
      * split; [now apply no_crash_set_proc|]. split.
        -- specialize (Hheld AtWhile _ Hw). simpl in Hheld.
           rewrite Hheld, Hq. exact Hp.
        -- intros Hx. apply exited_set_proc in Hx.
           destruct Hx as [Hx|Hx]; [discriminate|].
           specialize (He Hx). discriminate He.
      * split; [now apply no_crash_set_proc|]. split.
        -- specialize (Hheld (Holding done total t) _ Hw). simpl in Hheld.
           rewrite Hheld, <- Hp.
           apply Permutation_app_head, Permutation_map.
           apply (Permutation_middle (held (procs j)) q t).
        -- intros Hx. apply exited_set_proc in Hx.
           destruct Hx as [Hx|Hx]; [discriminate|].
           specialize (He Hx). discriminate He.
  - (* the conversion *)
    destruct (convert_task_spec done total t (shared j)) as [log Hconv].
    rewrite Hconv in Hstep. inversion Hstep; subst; clear Hstep.
    unfold pool_invariant; simpl.
    split; [now apply no_crash_set_proc|]. split.
    + specialize (Hheld AtWhile _ Hw). simpl in Hheld.
      rewrite <- Hp, <- Hheld. simpl. rewrite <- app_assoc. reflexivity.
    + intros Hx. apply exited_set_proc in Hx.
      destruct Hx as [Hx|Hx]; [discriminate | auto].
Qed.

Lemma pool_invariant_spawn (number_of_CPUs : nat) (st : store) :
  output_list st = [] -> pool_invariant (svg_queue st) (spawn number_of_CPUs st).
Proof.
  intros Ho. unfold pool_invariant, spawn. simpl.
  assert (existsb crashed (repeat AtWhile number_of_CPUs) = false) as H1
    by (induction number_of_CPUs; simpl; auto).
  assert (existsb exited (repeat AtWhile number_of_CPUs) = false) as H2
    by (induction number_of_CPUs; simpl; auto).
  assert (held (repeat AtWhile number_of_CPUs) = []) as H3
    by (induction number_of_CPUs; simpl; auto).
  rewrite Ho, H3. split; [exact H1|]. split; [reflexivity|].
  rewrite H2. discriminate.
Qed.

Lemma job_step_length (number_of_pages : Z) (c : nat * bool) (j j' : job) :
  job_step number_of_pages c j = Some j' ->
  List.length (procs j') = List.length (procs j).
Proof.
  assert (forall w p l, List.length (set_proc w p l) = List.length l) as Hl.
  { intros w p l. revert w. induction l; intros [|w]; simpl; auto. }
  destruct c as [w empty_signal]. unfold job_step.
  destruct (nth_error (procs j) w); [|discriminate].
  destruct (terminated p); [discriminate|].
  destruct (convert_svg_to_pdf_step number_of_pages empty_signal p (shared j)) as [[p'|e] st'];
    intros H; inversion H; simpl; apply Hl.
Qed.

(** After every [join] has returned, without a crash: nothing is held, and
    a pool that is not empty has seen the queue empty. *)
Lemma joined_pool (l : list pc) :
  forallb terminated l = true -> existsb crashed l = false ->
  held l = [] /\ (l <> [] -> existsb exited l = true).
Proof.
  induction l as [|p l IH]; simpl; intros Ht Hc; [split; congruence|].
  apply andb_true_iff in Ht. destruct Ht as [Hp Ht].
  apply orb_false_iff in Hc. destruct Hc as [Hpc Hc].
  destruct (IH Ht Hc) as [Hh _].
  destruct p; simpl in *; try discriminate. unfold held in *. simpl.
  split; [exact Hh | reflexivity].
Qed.

End Workers.

Section PoolClaims.

Context {P : Platform}.

Lemma nth_error_set_proc_same (w : nat) (p p' : pc) (l : list pc) :
  nth_error l w = Some p -> nth_error (set_proc w p' l) w = Some p'.
Proof.
  revert w. induction l as [|q l IH]; intros [|w] H; simpl in *;
    try discriminate; auto.
Qed.

Lemma run_workers_length (number_of_pages : Z) (schedule : list (nat * bool)) :
  forall j j', run_workers number_of_pages schedule j = Some j' ->
               List.length (procs j') = List.length (procs j).
Proof.
  induction schedule as [|c schedule IH]; intros j j' H; simpl in H.
  - now inversion H.
  - destruct (job_step number_of_pages c j) as [j1|] eqn:E; [|discriminate].
    rewrite (IH _ _ H). now apply job_step_length with number_of_pages c.
Qed.

Lemma run_workers_pool_invariant (number_of_pages : Z) (number_of_CPUs : nat)
    (st0 : store) (schedule : list (nat * bool)) (j : job) :
  output_list st0 = [] ->
  run_workers number_of_pages schedule (spawn number_of_CPUs st0) = Some j ->
  pool_invariant (svg_queue st0) j.
Proof.
  intros Ho Hrun.
  apply (run_workers_invariant (pool_invariant (svg_queue st0)) number_of_pages)
    with (schedule := schedule) (j := spawn number_of_CPUs st0).
  - intros c j1 j2. apply pool_invariant_step.
  - now apply pool_invariant_spawn.
  - exact Hrun.
Qed.

(** C2: start at least one worker on a queue of enumerated tasks with an
    empty result list.  Whatever the interleaving, once every worker has
    terminated the result list holds exactly one result per task (the
    results are, up to order, the tasks' conversions), so as many results
    as tasks, and the queue is empty. *)
Theorem job_collects_every_task (number_of_pages : Z) (number_of_CPUs : nat)
    (st0 : store) (schedule : list (nat * bool)) (j : job) :
  (0 < number_of_CPUs)%nat ->
  output_list st0 = [] ->
  run_workers number_of_pages schedule (spawn number_of_CPUs st0) = Some j ->
  joined j = true ->
  List.length (output_list (shared j)) = List.length (svg_queue st0) /\
  Permutation (output_list (shared j)) (map result_of (svg_queue st0)) /\
  svg_queue (shared j) = [].
Proof.
  intros Hn Ho Hrun Hj.
  destruct (run_workers_pool_invariant _ _ _ _ _ Ho Hrun) as [Hc [Hp He]].
  destruct (joined_pool _ Hj Hc) as [Hh Hex].
  assert (procs j <> []) as Hne.
  { apply run_workers_length in Hrun. simpl in Hrun.
    rewrite repeat_length in Hrun. intros E. rewrite E in Hrun. simpl in Hrun. lia. }
  assert (svg_queue (shared j) = []) as Hq by auto.
  rewrite Hh, Hq in Hp. simpl in Hp. rewrite app_nil_r in Hp.
  split; [|split; assumption].
  rewrite (Permutation_length Hp). apply length_map.
Qed.

(** The schedule [drain_schedule] runs every worker to its exit: the
    workers do terminate. *)
Lemma one_task_schedule_run (number_of_pages : Z) (st : store) (t : task)
    (q : list task) (others : list pc) :
  svg_queue st = t :: q ->
  exists st' : store,
    run_workers number_of_pages one_task_schedule (mkJob st (AtWhile :: others)) =
    Some (mkJob st' (AtWhile :: others)) /\
    svg_queue st' = q.
Proof.
  intros Hq.
  assert ((Z.of_nat (List.length (svg_queue st)) >? 0) = true) as Hpos
    by (rewrite Hq, Z.gtb_ltb; apply Z.ltb_lt; simpl List.length; lia).
  assert (job_step number_of_pages (0%nat, false) (mkJob st (AtWhile :: others)) =
          Some (mkJob st (AtProgress :: others))) as H1.
  { unfold job_step. simpl. unfold bind, qsize, ret. now rewrite Hpos. }
  set (done := number_of_pages - Z.of_nat (List.length (svg_queue st))).
  set (st1 := mkStore (svg_queue st) (output_list st)
                (stdout st ++ [Progress done number_of_pages]) (written st)).
  assert (job_step number_of_pages (0%nat, false) (mkJob st (AtProgress :: others)) =
          Some (mkJob st1 (AtGet done number_of_pages :: others))) as H2
    by reflexivity.
  set (st2 := mkStore q (output_list st1) (stdout st1) (written st1)).
  assert (job_step number_of_pages (0%nat, false)
            (mkJob st1 (AtGet done number_of_pages :: others)) =
          Some (mkJob st2 (Holding done number_of_pages t :: others))) as H3.
  { unfold job_step. simpl. unfold try_except, bind, get_nowait, ret. simpl.
    now rewrite Hq. }
  destruct (convert_task_spec done number_of_pages t st2) as [log Hc].
  set (st3 := mkStore (svg_queue st2) (output_list st2 ++ [result_of t])
                (stdout st2 ++ log) (written st2)) in Hc.
  assert (job_step number_of_pages (0%nat, false)
            (mkJob st2 (Holding done number_of_pages t :: others)) =
          Some (mkJob st3 (AtWhile :: others))) as H4.
  { unfold job_step. simpl. unfold bind. now rewrite Hc. }
  exists st3. unfold one_task_schedule. cbn [run_workers].
  rewrite H1, H2, H3, H4. split; reflexivity.
Qed.

Lemma exit_schedule_run (number_of_pages : Z) (st : store) (m : nat) :
  svg_queue st = [] ->
  forall k : nat,
    run_workers number_of_pages (map (fun w => (w, false)) (seq k m))
                (mkJob st (repeat Exited k ++ repeat AtWhile m)) =
    Some (mkJob st (repeat Exited (k + m))).
Proof.
  intros Hq. induction m as [|m IH]; intros k.
  - simpl. now rewrite app_nil_r, Nat.add_0_r.
  - cbn [seq map run_workers]. unfold job_step. cbn [procs shared].
    assert (nth_error (repeat Exited k ++ repeat AtWhile (S m)) k = Some AtWhile) as Hn.
    { rewrite nth_error_app2; rewrite repeat_length; [|lia].
      now rewrite Nat.sub_diag. }
    rewrite Hn. cbn [terminated convert_svg_to_pdf_step]. unfold bind, qsize, ret.
    rewrite Hq. cbn [List.length Z.of_nat Z.gtb Z.compare].
    assert (set_proc k Exited (repeat Exited k ++ repeat AtWhile (S m)) =
            (repeat Exited (S k) ++ repeat AtWhile m)%list) as Hs.
    { clear. induction k as [|k IHk]; simpl; [reflexivity|].
      simpl in IHk. now rewrite IHk. }
    rewrite Hs, IH. now rewrite Nat.add_succ_r.
Qed.

Lemma drain_schedule_joins (number_of_pages : Z) (number_of_CPUs : nat) (st0 : store) :
  (0 < number_of_CPUs)%nat ->
  exists j : job,
    run_workers number_of_pages
                (drain_schedule (List.length (svg_queue st0)) number_of_CPUs)
                (spawn number_of_CPUs st0) = Some j /\
    joined j = true.
Proof.
  intros Hn. unfold spawn.
  destruct number_of_CPUs as [|n]; [lia|]. clear Hn.
  remember (svg_queue st0) as queue eqn:Hq. revert st0 Hq.
  induction queue as [|t q IH]; intros st0 Hq.
  - cbn [drain_schedule List.length].
    change (repeat AtWhile (S n)) with (repeat Exited 0 ++ repeat AtWhile (S n))%list.
    rewrite exit_schedule_run by (now symmetry).
    eexists. split; [reflexivity|]. unfold joined. cbn [procs].
    generalize (0 + S n)%nat. clear. intros m. induction m; simpl; auto.
  - cbn [drain_schedule List.length].
    destruct (one_task_schedule_run number_of_pages st0 t q (repeat AtWhile n)
                (eq_sym Hq)) as [st' [Hrun Hq']].
    assert (forall s1 s2 j, run_workers number_of_pages (s1 ++ s2) j =
              match run_workers number_of_pages s1 j with
              | Some j' => run_workers number_of_pages s2 j'
              | None => None
              end) as Happ.
    { induction s1 as [|c s1 IHs]; intros s2 j; simpl; [reflexivity|].
      destruct (job_step number_of_pages c j); auto. }
    rewrite Happ. cbn [repeat]. rewrite Hrun.
    apply (IH st'). now symmetry.
Qed.

(** C3: for a pulled task the conversion step returns normally and appends
    exactly one result under the task's page index: the rendered bytes when
    both rendering calls succeed, [BLANK_PDF_PAGE] when either raises (the
    exception is printed, not propagated).  In the pool the worker goes back
    to the loop test; the other workers are left as they were. *)
Theorem convert_task_publishes_one_result
    (done total i : Z) (svg_data : bytes) (st : store) :
  exists (pdf_content : bytes) (log : list out_line) (st' : store),
    convert_task done total (i, svg_data) st = (Return tt, st') /\
    st' = mkStore (svg_queue st) (output_list st ++ [(i, pdf_content)])
                  (stdout st ++ log) (written st) /\
    (forall (drawing : Drawing) (pdf : bytes),
        svg2rlg svg_data = Return drawing -> drawToString drawing = Return pdf ->
        pdf_content = pdf) /\
    (forall e : exn,
        svg2rlg svg_data = Raise e ->
        pdf_content = BLANK_PDF_PAGE /\ In (ConvertError e) log) /\
    (forall (drawing : Drawing) (e : exn),
        svg2rlg svg_data = Return drawing -> drawToString drawing = Raise e ->
        pdf_content = BLANK_PDF_PAGE /\ In (ConvertError e) log) /\
    (forall (number_of_pages : Z) (w : nat) (empty_signal : bool) (j : job),
        shared j = st ->
        nth_error (procs j) w = Some (Holding done total (i, svg_data)) ->
        exists j' : job,
          job_step number_of_pages (w, empty_signal) j = Some j' /\
          shared j' = st' /\
          nth_error (procs j') w = Some AtWhile /\
          (forall w' : nat, w' <> w -> nth_error (procs j') w' = nth_error (procs j) w')).
Proof.
  assert (exists (pdf_content : bytes) (log : list out_line),
    convert_task done total (i, svg_data) st =
      (Return tt, mkStore (svg_queue st) (output_list st ++ [(i, pdf_content)])
                          (stdout st ++ log) (written st)) /\
    (forall (drawing : Drawing) (pdf : bytes),
        svg2rlg svg_data = Return drawing -> drawToString drawing = Return pdf ->
        pdf_content = pdf) /\
    (forall e : exn,
        svg2rlg svg_data = Raise e ->
        pdf_content = BLANK_PDF_PAGE /\ In (ConvertError e) log) /\
    (forall (drawing : Drawing) (e : exn),
        svg2rlg svg_data = Return drawing -> drawToString drawing = Raise e ->
        pdf_content = BLANK_PDF_PAGE /\ In (ConvertError e) log)) as Hconv.
  { unfold convert_task, render, try_except, bind, lift, output_append, print, ret.
    destruct (svg2rlg svg_data) as [drawing|e] eqn:E1.
    - destruct (drawToString drawing) as [pdf|e] eqn:E2.
      + exists pdf, [ProgressCleared done total]. cbn.
        repeat split; intros; repeat split; congruence.
      + exists BLANK_PDF_PAGE, [ConvertError e; ProgressCleared done total]. cbn.
        rewrite <- app_assoc.
        repeat split; intros; repeat split; try congruence; left; congruence.
    - exists BLANK_PDF_PAGE, [ConvertError e; ProgressCleared done total]. cbn.
      rewrite <- app_assoc.
      repeat split; intros; repeat split; try congruence; left; congruence. }
  destruct Hconv as [pdf_content [log [Hrun [H1 [H2 H3]]]]].
  exists pdf_content, log. eexists. split; [exact Hrun|].
  split; [reflexivity|].
  split; [exact H1|]. split; [exact H2|]. split; [exact H3|].
  intros number_of_pages w empty_signal j Hs Hw.
  unfold job_step. rewrite Hw. cbn [terminated convert_svg_to_pdf_step].
  unfold bind at 1. rewrite Hs, Hrun. unfold ret.
  eexists. split; [reflexivity|]. cbn [shared procs].
  split; [reflexivity|]. split.
  - now apply nth_error_set_proc_same with (Holding done total (i, svg_data)).
  - intros w' Hw'. now apply nth_error_set_proc_other.
Qed.

(** C4: a pull that raises the empty signal, on a queue that reports tasks
    or on one emptied in between, sends the worker back to the loop test,
    with the store unchanged.  A step takes a worker to its exit only from
    the loop test and only on an empty queue; since nothing is queued while
    the workers run, in every state of every run a worker has exited only if
    the queue is empty. *)
Theorem worker_retries_on_empty_signal (number_of_pages : Z) :
  (forall (done total : Z) (empty_signal : bool) (st : store),
      svg_queue st = [] \/ empty_signal = true ->
      convert_svg_to_pdf_step number_of_pages empty_signal (AtGet done total) st =
      (Return AtWhile, st)) /\
  (forall (empty_signal : bool) (p : pc) (st st' : store),
      convert_svg_to_pdf_step number_of_pages empty_signal p st = (Return Exited, st') ->
      p <> Exited ->
      p = AtWhile /\ svg_queue st = [] /\ st' = st) /\
  (forall (number_of_CPUs : nat) (st0 : store) (schedule : list (nat * bool)) (j : job),
      output_list st0 = [] ->
      run_workers number_of_pages schedule (spawn number_of_CPUs st0) = Some j ->
      existsb exited (procs j) = true ->
      svg_queue (shared j) = []).
Proof.
  split; [|split].
  - intros done total empty_signal st H.
    unfold convert_svg_to_pdf_step, try_except, bind, get_nowait, ret.
    destruct (svg_queue st) as [|t q]; [reflexivity|].
    destruct H as [H|H]; [discriminate | now rewrite H].
  - intros empty_signal p st st' H Hp.
    destruct p as [| |done total|done total t| |e]; simpl in H;
      unfold bind, qsize, print, ret, try_except, get_nowait in H.
    + destruct (Z.of_nat (List.length (svg_queue st)) >? 0) eqn:Hq;
        inversion H; subst.
      split; [reflexivity|]. split; [now apply qsize_not_positive | reflexivity].
    + discriminate H.
    + destruct (svg_queue st); [discriminate|].
      destruct empty_signal; discriminate.
    + destruct (convert_task_spec done total t st) as [log Hc].
      rewrite Hc in H. discriminate H.
    + congruence.
    + discriminate H.
  - intros number_of_CPUs st0 schedule j Ho Hrun.
    now destruct (run_workers_pool_invariant _ _ _ _ _ Ho Hrun) as [_ [_ He]].
Qed.

End PoolClaims.

(** ** [main]: the result list handed to [write_pdf] *)

Section MainFacts.

Context {P : Platform}.

Lemma process_files_count (path : str) (pattern : option str) (st st1 : store)
    (pdf_file_name : str) (number_of_svg_files : Z) :
  process_files path pattern st = (Return (pdf_file_name, number_of_svg_files), st1) ->
  number_of_svg_files = Z.of_nat (List.length (svg_queue st1)).
Proof.
  unfold process_files. unfold bind at 1.
  destruct (lift (re_compile (effective_pattern pattern)) st) as [[pat|e] s0];
    [|discriminate].
  destruct (isdir path); [|destruct (is_zipfile path)].
  - unfold bind at 1.
    match goal with |- context [for_each ?l ?f s0] =>
      destruct (for_each l f s0) as [[[]|e] s1] end; [|discriminate].
    unfold bind, qsize, ret. intros H. now inversion H.
  - unfold bind at 1.
    destruct (lift (of_option (zip_namelist path) BadZipFile) s0) as [[names|e] s1];
      [|discriminate].
    unfold bind at 1.
    destruct (for_each names (zip_member path pat) s1) as [[[]|e] s2];
      [|discriminate].
    unfold bind, qsize, ret. intros H. now inversion H.
  - discriminate.
Qed.

(** In [main], with at least one worker, the list [write_pdf] receives has
    as many results as [process_files] counted files. *)
Lemma main_results_complete (path : str) (pattern : option str) (st st1 : store)
    (pdf_file_name : str) (number_of_svg_files : Z) (number_of_CPUs : nat)
    (schedule : list (nat * bool)) (j : job) :
  (0 < number_of_CPUs)%nat ->
  process_files path pattern (mkStore [] [] (stdout st) (written st)) =
    (Return (pdf_file_name, number_of_svg_files), st1) ->
  run_workers number_of_svg_files schedule (spawn number_of_CPUs st1) = Some j ->
  joined j = true ->
  main path pattern number_of_CPUs schedule st = Some (write_pdf pdf_file_name (shared j)) /\
  Z.of_nat (List.length (output_list (shared j))) = number_of_svg_files.
Proof.
  intros Hn Hpf Hrun Hj. split.
  - unfold main. now rewrite Hpf, Hrun, Hj.
  - assert (output_list st1 = []) as Ho.
    { destruct (frame_process_files path pattern (mkStore [] [] (stdout st) (written st)))
        as [H _]. now rewrite Hpf in H. }
    destruct (run_workers_pool_invariant _ _ _ _ _ Ho Hrun) as [Hc [Hp He]].
    destruct (joined_pool _ Hj Hc) as [Hh Hex].
    assert (procs j <> []) as Hne.
    { apply run_workers_length in Hrun. simpl in Hrun.
      rewrite repeat_length in Hrun. intros E. rewrite E in Hrun. simpl in Hrun. lia. }
    rewrite Hh, (He (Hex Hne)) in Hp. simpl in Hp. rewrite app_nil_r in Hp.
    rewrite (Permutation_length Hp), length_map. symmetry.
    now apply process_files_count with path pattern
      (mkStore [] [] (stdout st) (written st)) pdf_file_name.
Qed.

(** With nothing queued the workers only find the queue empty and leave:
    the store stays as it is under every schedule. *)
Lemma idle_pool (number_of_pages : Z) (st : store) (schedule : list (nat * bool)) :
  svg_queue st = [] ->
  forall (l : list pc) (j : job),
    Forall (fun p => p = AtWhile \/ p = Exited) l ->
    run_workers number_of_pages schedule (mkJob st l) = Some j ->
    shared j = st.
Proof.
  intros Hq. induction schedule as [|[w empty_signal] schedule IH];
    intros l j Hl H; simpl in H.
  - now inversion H.
  - destruct (nth_error l w) as [p|] eqn:Hw; [|discriminate].
    assert (p = AtWhile \/ p = Exited) as Hp.
    { rewrite Forall_forall in Hl. apply Hl. now apply nth_error_In with w. }
    destruct Hp as [->| ->]; [|discriminate].
    simpl in H. unfold bind, qsize, ret in H. rewrite Hq in H. simpl in H.
    apply IH in H; [exact H|].
    clear - Hl. revert w. induction Hl as [|q l Hq Hl IHl]; intros [|w]; simpl;
      constructor; auto.
Qed.

(** C8 (amended): on an empty result list [write_pdf] returns at once and
    leaves the store as it was: no file is written and nothing is printed.
    A run of [main] in which [process_files] queues nothing ends, under
    every schedule, in the store that [process_files] left: no document and
    no report of any kind. *)
Theorem write_pdf_empty_is_silent (file_name : str) :
  (forall st : store,
      output_list st = [] -> write_pdf file_name st = (Return tt, st)) /\
  (forall (path : str) (pattern : option str) (number_of_CPUs : nat)
          (schedule : list (nat * bool)) (st st1 : store) (n : Z)
          (r : outcome unit * store),
      process_files path pattern (mkStore [] [] (stdout st) (written st)) =
        (Return (file_name, n), st1) ->
      svg_queue st1 = [] ->
      main path pattern number_of_CPUs schedule st = Some r ->
      r = (Return tt, st1)).
Proof.
  assert (forall st : store,
             output_list st = [] -> write_pdf file_name st = (Return tt, st)) as Hw.
  { intros st E. unfold write_pdf. now rewrite E. }
  split; [exact Hw|].
  intros path pattern number_of_CPUs schedule st st1 n r Hpf Hq Hmain.
  unfold main in Hmain. rewrite Hpf in Hmain.
  destruct (run_workers n schedule (spawn number_of_CPUs st1)) as [j|] eqn:Hrun;
    [|discriminate].
  destruct (joined j); [|discriminate].
  assert (shared j = st1) as Hs.
  { apply (idle_pool n st1 schedule Hq (repeat AtWhile number_of_CPUs) j);
      [|exact Hrun].
    apply Forall_forall. intros p Hp. apply repeat_spec in Hp. now left. }
  rewrite Hs in Hmain. inversion Hmain; subst. apply Hw.
  destruct (frame_process_files path pattern (mkStore [] [] (stdout st) (written st)))
    as [H _]. now rewrite Hpf in H.
Qed.

End MainFacts.

(** ** The claims on the concrete platform *)

Section Concrete.

Import Demo.

(** C1 as stated fails: two results with page index 0 collected in the
    order [b], [a] are written in the order [a], [b], not in the order in
    which they were collected. *)
Lemma write_pdf_ties_not_in_collection_order :
  written (snd (write_pdf "o.pdf" tied_results)) = [("o.pdf", ["%PDF a"; "%PDF b"])] /\
  map snd (sort_by_page_index (output_list tied_results)) = ["%PDF b"; "%PDF a"] /\
  written (snd (write_pdf "o.pdf" tied_results)) <>
  [("o.pdf", map snd (sort_by_page_index (output_list tied_results)))].
Proof.
  split; [reflexivity|]. split; [reflexivity|].
  vm_compute. intros H. discriminate H.
Qed.

Lemma write_pdf_page_order_witness :
  output_list tied_results <> [] /\ can_write "o.pdf" = true /\
  exists (pages : list result) (st' : store),
    write_pdf "o.pdf" tied_results = (Return tt, st') /\
    written st' = [("o.pdf", map snd pages)] /\
    StronglySorted Z.le (map fst pages) /\
    StronglySorted tuple_le pages.
Proof.
  assert (output_list tied_results <> []) as Hne by discriminate.
  assert (can_write "o.pdf" = true) as Hw by reflexivity.
  split; [exact Hne|]. split; [exact Hw|].
  destruct (write_pdf_page_order "o.pdf" tied_results Hne Hw)
    as [sorted [pages [st' [Hrun [_ [_ [Hwr [Hidx [Hs _]]]]]]]]].
  exists pages, st'. repeat split; assumption.
Defined.

Lemma job_collects_every_task_witness :
  (0 < 2)%nat /\ output_list two_tasks = [] /\
  run_workers 2 interleaving (spawn 2 two_tasks) = Some final_job /\
  joined final_job = true /\
  List.length (output_list (shared final_job)) = List.length (svg_queue two_tasks) /\
  Permutation (output_list (shared final_job)) (map result_of (svg_queue two_tasks)) /\
  svg_queue (shared final_job) = [].
Proof.
  split; [lia|]. split; [reflexivity|]. split; [reflexivity|]. split; [reflexivity|].
  apply (job_collects_every_task 2 2 two_tasks interleaving final_job);
    [lia | reflexivity | reflexivity | reflexivity].
Defined.

Lemma convert_task_publishes_one_result_witness :
  svg2rlg "not an image" = Raise SvgError /\
  exists (log : list out_line),
    convert_task 1 2 (1, "not an image") two_tasks =
    (Return tt, mkStore (svg_queue two_tasks) [(1, BLANK_PDF_PAGE)] log []) /\
    In (ConvertError SvgError) log.
Proof.
  split; [reflexivity|].
  destruct (convert_task_publishes_one_result 1 2 1 "not an image" two_tasks)
    as [pdf [log [st' [Hrun [Hst [_ [Hfail _]]]]]]].
  assert (svg2rlg "not an image" = Raise SvgError) as Hsvg by reflexivity.
  destruct (Hfail SvgError Hsvg) as [Hpdf Hin].
  exists log. split; [|exact Hin].
  rewrite Hst, Hpdf in Hrun. exact Hrun.
Defined.

Lemma worker_retries_on_empty_signal_witness :
  svg_queue two_tasks <> [] /\
  convert_svg_to_pdf_step 2 true (AtGet 0 2) two_tasks = (Return AtWhile, two_tasks) /\
  existsb exited (procs final_job) = true /\
  svg_queue (shared final_job) = [].
Proof.
  destruct (worker_retries_on_empty_signal 2) as [Hretry [_ Hexit]].
  split; [discriminate|].
  split; [apply Hretry; now right|].
  split; [reflexivity|].
  apply (Hexit 2%nat two_tasks interleaving final_job); reflexivity.
Defined.

Lemma write_pdf_survives_page_failure_witness :
  In (2, "corrupt") (output_list mixed_results) /\
  merger_append "corrupt" = Raise PdfReadError /\
  can_write "o.pdf" = true /\
  exists (st' : store) (log : list out_line) (error_page : list Z) (merged : list bytes),
    write_pdf "o.pdf" mixed_results = (Return tt, st') /\
    stdout st' =
      (stdout mixed_results ++ log ++
       [CreatedWithErrors "o.pdf" (List.length (output_list mixed_results))
                          (List.length error_page) error_page])%list /\
    In 2 error_page /\
    In (MergerError 2 PdfReadError) log /\
    written st' = (written mixed_results ++ [("o.pdf", merged)])%list /\
    (forall (j : Z) (p : bytes),
        In (j, p) (output_list mixed_results) -> accepts p = true -> In p merged).
Proof.
  assert (In (2, "corrupt") (output_list mixed_results)) as Hin
    by (right; left; reflexivity).
  split; [exact Hin|]. split; [reflexivity|]. split; [reflexivity|].
  apply (write_pdf_survives_page_failure "o.pdf" mixed_results 2 "corrupt" PdfReadError);
    [exact Hin | reflexivity | reflexivity].
Defined.

(** C6 as stated fails: with a path that is neither a directory nor an
    archive and a pattern that does not compile, [process_files] raises the
    error of [re.compile], not the input error. *)
Lemma process_files_bad_pattern_before_path_check :
  isdir "nowhere" = false /\ is_zipfile "nowhere" = false /\
  fst (process_files "nowhere" (Some "(") empty_store) = Raise re_error /\
  fst (process_files "nowhere" (Some "(") empty_store) <> Raise InputError.
Proof.
  split; [reflexivity|]. split; [reflexivity|]. split; [reflexivity|].
  vm_compute. intros H. discriminate H.
Qed.

Lemma process_files_input_error_witness :
  re_valid (effective_pattern None) = true /\
  isdir "nowhere" = false /\ is_zipfile "nowhere" = false /\
  process_files "nowhere" None empty_store = (Raise InputError, empty_store) /\
  main "nowhere" None 2 interleaving two_tasks =
  Some (Raise InputError, empty_store).
Proof.
  assert (re_valid (effective_pattern None) = true) as Hv by reflexivity.
  assert (isdir "nowhere" = false) as Hd by reflexivity.
  assert (is_zipfile "nowhere" = false) as Hz by reflexivity.
  split; [exact Hv|]. split; [exact Hd|]. split; [exact Hz|].
  split.
  - destruct (process_files_input_error "nowhere" None empty_store Hv) as [_ H].
    exact (proj1 (H Hd Hz)).
  - destruct (process_files_input_error "nowhere" None two_tasks Hv) as [_ H].
    exact (proj2 (H Hd Hz) 2%nat interleaving).
Defined.

Lemma page_number_last_match_witness :
  findall "\d+" "scan12_page_7.svg" = [MStr "12"; MStr "7"] /\
  page_number "scan12_page_7.svg" "\d+" empty_store = (Return 7, empty_store) /\
  findall "\d+" "cover.svg" = [] /\
  page_number "cover.svg" "\d+" empty_store =
    (Return 0, mkStore [] [] [IndexWarning "cover.svg" "\d+"] []) /\
  dir_file "book" "\d+" "cover.svg" empty_store =
    (Return tt, mkStore [(0, "<svg>cover</svg>")] []
                        [IndexWarning "cover.svg" "\d+"] []).
Proof.
  assert (findall "\d+" "scan12_page_7.svg" = ([MStr "12"] ++ [MStr "7"])%list) as H7
    by reflexivity.
  assert (int_of_str "7" = Some 7) as Hint by reflexivity.
  assert (findall "\d+" "cover.svg" = []) as Hnone by reflexivity.
  assert (endswith "cover.svg" ".svg" = true) as Hsvg by reflexivity.
  assert (read_file (path_join "book" "cover.svg") = Some "<svg>cover</svg>") as Hread
    by reflexivity.
  split; [exact H7|].
  split.
  { destruct (page_number_last_match "scan12_page_7.svg" "\d+" empty_store)
      as [_ [H _]]. exact (H [MStr "12"] "7" 7 H7 Hint). }
  split; [exact Hnone|].
  destruct (page_number_last_match "cover.svg" "\d+" empty_store) as [_ [_ H]].
  destruct (H Hnone) as [H0 [Hdir _]].
  split; [exact H0|].
  rewrite (Hdir "book" "<svg>cover</svg>" Hsvg Hread). reflexivity.
Defined.

(** C8 as stated fails: on an empty result list [write_pdf] prints no
    report at all, and a whole run of [main] on a directory without files
    ends with nothing printed and nothing written. *)
Lemma write_pdf_empty_reports_nothing :
  output_list empty_store = [] /\
  ~ (exists line : out_line,
        In line (stdout (snd (write_pdf "svg_to_pdf.pdf" empty_store)))) /\
  main "empty" None 2 (drain_schedule 0 2) empty_store = Some (Return tt, empty_store).
Proof.
  split; [reflexivity|]. split; [|reflexivity].
  intros [line H]. exact H.
Qed.

Lemma write_pdf_empty_is_silent_witness :
  output_list empty_store = [] /\
  write_pdf "empty.pdf" empty_store = (Return tt, empty_store) /\
  process_files "empty" None empty_store = (Return ("empty.pdf", 0), empty_store) /\
  main "empty" None 2 (drain_schedule 0 2) empty_store <> None /\
  (forall r : outcome unit * store,
      main "empty" None 2 (drain_schedule 0 2) empty_store = Some r ->
      r = (Return tt, empty_store)).
Proof.
  assert (output_list empty_store = []) as Ho by reflexivity.
  assert (process_files "empty" None empty_store =
          (Return ("empty.pdf", 0), empty_store)) as Hpf by reflexivity.
  destruct (write_pdf_empty_is_silent "empty.pdf") as [Hw Hmain].
  split; [exact Ho|]. split; [exact (Hw empty_store Ho)|]. split; [exact Hpf|].
  split; [discriminate|].
  intros r Hr.
  exact (Hmain "empty" None 2%nat (drain_schedule 0 2) empty_store empty_store 0 r
               Hpf Ho Hr).
Defined.

Lemma page_number_value_error_aborts_witness :
  re_valid (effective_pattern (Some "[a-z]+")) = true /\
  findall (effective_pattern (Some "[a-z]+")) "page_2.svg" = [MStr "page"; MStr "svg"] /\
  int_of_str "svg" = None /\
  enumerated "book" "page_2.svg" /\
  page_number "page_2.svg" "[a-z]+" empty_store = (Raise ValueError, empty_store) /\
  (exists (e : exn) (st' : store),
      process_files "book" (Some "[a-z]+") empty_store = (Raise e, st')) /\
  (exists (e : exn) (st' : store),
      main "book" (Some "[a-z]+") 2 interleaving empty_store = Some (Raise e, st') /\
      output_list st' = [] /\ written st' = written empty_store).
Proof.
  assert (enumerated "book" "page_2.svg") as Hen.
  { left. split; [reflexivity|].
    exists "book", [], ["page_2.svg"; "notes.txt"; "page_1.svg"; "cover.svg"].
    split; [left; reflexivity|]. split; [left; reflexivity | reflexivity]. }
  assert (re_valid (effective_pattern (Some "[a-z]+")) = true) as Hv by reflexivity.
  assert (findall (effective_pattern (Some "[a-z]+")) "page_2.svg" =
          ([MStr "page"] ++ [MStr "svg"])%list) as Hf by reflexivity.
  assert (int_of_str "svg" = None) as Hs by reflexivity.
  split; [exact Hv|]. split; [exact Hf|]. split; [exact Hs|].
  split; [exact Hen|].
  destruct (page_number_value_error_aborts "book" (Some "[a-z]+") "page_2.svg"
              [MStr "page"] "svg" empty_store Hv Hf Hs)
    as [Hpn Hjob].
  split; [exact Hpn|].
  destruct (Hjob Hen) as [Hpf Hmain].
  split; [exact Hpf | exact (Hmain 2%nat interleaving)].
Defined.

Lemma write_pdf_reports_blank_bytes_witness :
  output_list mixed_results <> [] /\ can_write "o.pdf" = true /\
  In (1, BLANK_PDF_PAGE) (output_list mixed_results) /\
  exists (st' : store) (error_page : list Z),
    write_pdf "o.pdf" mixed_results = (Return tt, st') /\
    In 1 error_page.
Proof.
  assert (In (1, BLANK_PDF_PAGE) (output_list mixed_results)) as Hin
    by (right; right; left; reflexivity).
  split; [discriminate|]. split; [reflexivity|]. split; [exact Hin|].
  destruct (write_pdf_reports_blank_bytes "o.pdf" mixed_results)
    as [st' [log [error_page [Hrun [_ [Hblank _]]]]]];
    [discriminate | reflexivity |].
  exists st', error_page. split; [exact Hrun|].
  exact (Hblank 1 BLANK_PDF_PAGE Hin (eq_refl BLANK_PDF_PAGE)).
Defined.

End Concrete.

(** * Further properties of the code *)

(** ** What [process_files] queues *)

Section EnumerationHistory.

Context {P : Platform}.

Lemma store_eta (st : store) :
  mkStore (svg_queue st) (output_list st) (stdout st) (written st) = st.
Proof. now destruct st. Qed.

Lemma last_item_cons {A} (a : A) (l : list A) : exists m, last_item (a :: l) = Return m.
Proof.
  unfold last_item. destruct (rev (a :: l)) as [|m r] eqn:E; [|eauto].
  apply (f_equal (@List.length A)) in E. rewrite length_rev in E. discriminate E.
Qed.

Lemma page_number_returns (file_name pattern : str) (st st' : store) (n : Z) :
  page_number file_name pattern st = (Return n, st') ->
  indexed_as pattern file_name n /\
  st' = mkStore (svg_queue st) (output_list st)
                (stdout st ++ (if unmatched pattern file_name
                               then [IndexWarning file_name pattern] else []))
                (written st).
Proof.
  unfold page_number, try_except, bind, lift, indexed_as, unmatched.
  destruct (findall pattern file_name) as [|a l] eqn:E.
  - simpl. unfold print, ret. intros H. inversion H. auto.
  - destruct (last_item_cons a l) as [m ->].
    destruct (int m) as [k|e] eqn:Hm.
    + intros H. inversion H; subst. rewrite app_nil_r, store_eta. auto.
    + destruct m as [s|g]; simpl in Hm; [destruct (int_of_str s)|];
        inversion Hm; subst; intros H; discriminate H.
Qed.

Lemma zip_member_returns (path pattern file : str) (st st' : store) :
  zip_member path pattern file st = (Return tt, st') ->
  if endswith (lower file) ".svg"
  then exists t : task,
         (zip_read path file = Some (snd t) /\ indexed_as pattern file (fst t)) /\
         st' = mkStore (svg_queue st ++ [t]) (output_list st)
                       (stdout st ++ (if unmatched pattern file
                                      then [IndexWarning file pattern] else []))
                       (written st)
  else st' = st.
Proof.
  unfold zip_member. destruct (endswith (lower file) ".svg").
  - unfold bind at 1.
    destruct (page_number file pattern st) as [[n|e] st1] eqn:Hn; [|discriminate].
    apply page_number_returns in Hn. destruct Hn as [Hi ->].
    unfold bind, lift, queue_put.
    destruct (zip_read path file) as [data|]; simpl; [|discriminate].
    intros H. inversion H. exists (n, data). auto.
  - unfold ret. intros H. now inversion H.
Qed.

Lemma dir_file_returns (root pattern file : str) (st st' : store) :
  dir_file root pattern file st = (Return tt, st') ->
  if endswith file ".svg"
  then exists t : task,
         (read_file (path_join root file) = Some (snd t) /\
          indexed_as pattern file (fst t)) /\
         st' = mkStore (svg_queue st ++ [t]) (output_list st)
                       (stdout st ++ (if unmatched pattern file
                                      then [IndexWarning file pattern] else []))
                       (written st)
  else st' = st.
Proof.
  unfold dir_file. destruct (endswith file ".svg").
  - unfold bind at 1. unfold lift.
    destruct (read_file (path_join root file)) as [data|]; simpl; [|discriminate].
    unfold bind at 1.
    destruct (page_number file pattern st) as [[n|e] st1] eqn:Hn; [|discriminate].
    apply page_number_returns in Hn. destruct Hn as [Hi ->].
    unfold queue_put. intros H. inversion H. exists (n, data). auto.
  - unfold ret. intros H. now inversion H.
Qed.

(** A loop whose body queues one task for the items it keeps and does
    nothing for the others queues the tasks of the kept items, in order. *)
Lemma for_each_queues {A} (keep : A -> bool) (R : A -> task -> Prop)
    (W : A -> list out_line) (body : A -> M unit) :
  (forall x st st',
      body x st = (Return tt, st') ->
      if keep x
      then exists t : task,
             R x t /\
             st' = mkStore (svg_queue st ++ [t]) (output_list st)
                           (stdout st ++ W x) (written st)
      else st' = st) ->
  forall (l : list A) (st st' : store),
    for_each l body st = (Return tt, st') ->
    exists tasks : list task,
      Forall2 R (filter keep l) tasks /\
      st' = mkStore (svg_queue st ++ tasks) (output_list st)
                    (stdout st ++ flat_map W (filter keep l)) (written st).
Proof.
  intros Hbody. induction l as [|x l IH]; intros st st' H; simpl in H.
  - inversion H; subst. exists []. simpl. rewrite !app_nil_r, store_eta.
    split; [constructor | reflexivity].
  - unfold bind in H. destruct (body x st) as [[[]|e] st1] eqn:Hx; [|discriminate].
    apply Hbody in Hx. apply IH in H. destruct H as [tasks [Hf ->]].
    simpl. destruct (keep x).
    + destruct Hx as [t [Ht ->]]. exists (t :: tasks). simpl.
      rewrite <- !app_assoc. split; [now constructor | reflexivity].
    + subst st1. exists tasks. auto.
Qed.

Lemma for_each_app {A} (l1 l2 : list A) (body : A -> M unit) (st : store) :
  for_each (l1 ++ l2) body st = (for_each l1 body ;; for_each l2 body)%py st.
Proof.
  revert st. induction l1 as [|x l1 IH]; intros st; simpl.
  - reflexivity.
  - unfold bind. destruct (body x st) as [[[]|e] st1]; [|reflexivity].
    rewrite IH. reflexivity.
Qed.

Lemma for_each_map {A B} (f : A -> B) (l : list A) (body : B -> M unit) (st : store) :
  for_each (map f l) body st = for_each l (fun x => body (f x)) st.
Proof.
  revert st. induction l as [|x l IH]; intros st; simpl; [reflexivity|].
  unfold bind. destruct (body (f x) st) as [[[]|e] st1]; [apply IH | reflexivity].
Qed.

(** The two nested loops over a walk are one loop over its files. *)
Lemma walk_loop_flat (w : list (str * list str * list str)) (pattern : str) (st : store) :
  for_each w (fun '(root, _, files) => for_each files (dir_file root pattern)) st =
  for_each (walked_files w) (fun rf => dir_file (fst rf) pattern (snd rf)) st.
Proof.
  revert st. induction w as [|[[root dirs] files] w IH]; intros st.
  - reflexivity.
  - cbn [for_each walked_files flat_map]. rewrite for_each_app.
    unfold bind. rewrite for_each_map.
    change (fun x : str => dir_file (fst (root, x)) pattern (snd (root, x)))
      with (dir_file root pattern).
    destruct (for_each files (dir_file root pattern) st) as [[[]|e] st1];
      [apply IH | reflexivity].
Qed.

Lemma warnings_map_snd {A} (pattern : str) (l : list (A * str)) :
  flat_map (fun rf => if unmatched pattern (snd rf)
                      then [IndexWarning (snd rf) pattern] else []) l =
  warnings pattern (map snd l).
Proof.
  unfold warnings. induction l as [|x l IH]; simpl; [reflexivity|]. now rewrite IH.
Qed.

(** [process_files] on a directory that it reads to the end: the queue gains
    one task per file whose name ends in [.svg] (lower case only), in the
    order of the walk, each with the bytes of its file and the page index of
    its name; the warnings printed are those of the names without a match;
    the count returned is the length of the whole queue and the output name
    is the directory's base name with [.pdf]. *)
Theorem process_files_directory (path : str) (pattern : option str)
    (st st' : store) (pdf_file_name : str) (n : Z) :
  isdir path = true ->
  process_files path pattern st = (Return (pdf_file_name, n), st') ->
  exists tasks : list task,
    let svg := filter (fun rf => endswith (snd rf) ".svg") (walked_files (walk path)) in
    Forall2 (fun rf t =>
               read_file (path_join (fst rf) (snd rf)) = Some (snd t) /\
               indexed_as (effective_pattern pattern) (snd rf) (fst t))
            svg tasks /\
    st' = mkStore (svg_queue st ++ tasks) (output_list st)
                  (stdout st ++ warnings (effective_pattern pattern) (map snd svg))
                  (written st) /\
    pdf_file_name = basename path ++ ".pdf" /\
    n = Z.of_nat (List.length (svg_queue st) + List.length svg).
Proof.
  intros Hd H. pose proof (process_files_count _ _ _ _ _ _ H) as Hn.
  unfold process_files in H. unfold bind at 1 in H. unfold lift, re_compile in H.
  destruct (re_valid (effective_pattern pattern)); [|discriminate].
  rewrite Hd in H. unfold bind at 1 in H. rewrite walk_loop_flat in H.
  match type of H with context [for_each ?l ?b st] =>
    destruct (for_each l b st) as [[[]|e] st1] eqn:Hloop end; [|discriminate].
  unfold bind, qsize, ret in H. inversion H; subst. clear H.
  apply (for_each_queues
           (fun rf => endswith (snd rf) ".svg")
           (fun rf t => read_file (path_join (fst rf) (snd rf)) = Some (snd t) /\
                        indexed_as (effective_pattern pattern) (snd rf) (fst t))
           (fun rf => if unmatched (effective_pattern pattern) (snd rf)
                      then [IndexWarning (snd rf) (effective_pattern pattern)] else []))
    in Hloop.
  - destruct Hloop as [tasks [Hf ->]]. exists tasks. cbn zeta.
    split; [exact Hf|]. rewrite warnings_map_snd. split; [reflexivity|].
    split; [reflexivity|]. cbn [svg_queue]. rewrite length_app.
    now rewrite (Forall2_length Hf).
  - intros [root file] s0 s1. cbn [fst snd]. apply dir_file_returns.
Qed.

(** [process_files] on an archive that it reads to the end: the same for
    the members whose name ends in [.svg] in any letter case, in the order of
    the archive's name list; the output name drops the archive's extension. *)
Theorem process_files_archive (path : str) (pattern : option str)
    (st st' : store) (pdf_file_name : str) (n : Z) :
  isdir path = false ->
  process_files path pattern st = (Return (pdf_file_name, n), st') ->
  exists (names : list str) (tasks : list task),
    let svg := filter (fun f => endswith (lower f) ".svg") names in
    is_zipfile path = true /\
    zip_namelist path = Some names /\
    Forall2 (fun f t =>
               zip_read path f = Some (snd t) /\
               indexed_as (effective_pattern pattern) f (fst t))
            svg tasks /\
    st' = mkStore (svg_queue st ++ tasks) (output_list st)
                  (stdout st ++ warnings (effective_pattern pattern) svg)
                  (written st) /\
    pdf_file_name = fst (splitext (basename path)) ++ ".pdf" /\
    n = Z.of_nat (List.length (svg_queue st) + List.length svg).
Proof.
  intros Hd H. unfold process_files in H. unfold bind at 1 in H.
  unfold lift, re_compile in H.
  destruct (re_valid (effective_pattern pattern)); [|discriminate].
  rewrite Hd in H. destruct (is_zipfile path); [|discriminate].
  unfold bind at 1 in H. unfold lift in H.
  destruct (zip_namelist path) as [names|]; [|discriminate]. simpl in H.
  unfold bind at 1 in H.
  destruct (for_each names (zip_member path (effective_pattern pattern)) st)
    as [[[]|e] st1] eqn:Hloop; [|discriminate].
  unfold bind, qsize, ret in H. inversion H; subst. clear H.
  apply (for_each_queues
           (fun f => endswith (lower f) ".svg")
           (fun f t => zip_read path f = Some (snd t) /\
                       indexed_as (effective_pattern pattern) f (fst t))
           (fun f => if unmatched (effective_pattern pattern) f
                     then [IndexWarning f (effective_pattern pattern)] else []))
    in Hloop.
  - destruct Hloop as [tasks [Hf ->]]. exists names, tasks. cbn zeta.
    split; [reflexivity|]. split; [reflexivity|]. split; [exact Hf|].
    split; [reflexivity|]. split; [reflexivity|].
    cbn [svg_queue]. rewrite length_app. now rewrite (Forall2_length Hf).
  - intros f s0 s1. apply zip_member_returns.
Qed.

End EnumerationHistory.

(** ** [process_files] only adds *)

Section EnumerationGrowth.

Context {P : Platform}.

Lemma grows_bind {A B} (m : M A) (k : A -> M B) :
  grows m -> (forall a, grows (k a)) -> grows (bind m k).
Proof.
  intros Hm Hk st. unfold bind. destruct (Hm st) as [q1 [o1 H1]].
  destruct (m st) as [[a|e] st1]; simpl in H1.
  - destruct (Hk a st1) as [q2 [o2 H2]]. exists (q1 ++ q2)%list, (o1 ++ o2)%list.
    rewrite H2, H1. cbn [svg_queue output_list stdout written].
    now rewrite !app_assoc.
  - exists q1, o1. exact H1.
Qed.

Lemma grows_unchanged {A} (m : M A) : (forall st, snd (m st) = st) -> grows m.
Proof.
  intros H st. exists [], []. rewrite H, !app_nil_r. symmetry. apply store_eta.
Qed.

Lemma grows_print (line : out_line) : grows (print line).
Proof. intros st. exists [], [line]. simpl. now rewrite app_nil_r. Qed.

Lemma grows_queue_put (t : task) : grows (queue_put t).
Proof. intros st. exists [t], []. simpl. now rewrite app_nil_r. Qed.

Lemma grows_for_each {A} (l : list A) (body : A -> M unit) :
  (forall x, grows (body x)) -> grows (for_each l body).
Proof.
  intros Hb. induction l as [|x l IH]; simpl.
  - now apply grows_unchanged.
  - apply grows_bind; auto.
Qed.

Lemma grows_page_number (file_name pattern : str) : grows (page_number file_name pattern).
Proof.
  intros st. unfold page_number, try_except, bind, lift.
  destruct (last_item (findall pattern file_name)) as [m|e].
  - destruct m as [s|g]; simpl; [destruct (int_of_str s)|];
      exists [], []; rewrite !app_nil_r, store_eta; reflexivity.
  - destruct e; try (exists [], []; rewrite !app_nil_r, store_eta; reflexivity).
    exists [], [IndexWarning file_name pattern]. simpl. now rewrite app_nil_r.
Qed.

Lemma grows_dir_file (root pattern file : str) : grows (dir_file root pattern file).
Proof.
  unfold dir_file. destruct (endswith file ".svg"); [|now apply grows_unchanged].
  apply grows_bind; [now apply grows_unchanged|]. intros data.
  apply grows_bind; [apply grows_page_number|]. intros n. apply grows_queue_put.
Qed.

Lemma grows_zip_member (path pattern file : str) : grows (zip_member path pattern file).
Proof.
  unfold zip_member. destruct (endswith (lower file) ".svg");
    [|now apply grows_unchanged].
  apply grows_bind; [apply grows_page_number|]. intros n.
  apply grows_bind; [now apply grows_unchanged|]. intros data. apply grows_queue_put.
Qed.

(** Whatever [process_files] meets (a pattern that does not compile, an
    unusable path, a file it cannot read, a name [int] refuses) and whether
    it returns or raises, it only adds tasks at the end of the queue and
    lines to the output: what was queued before, and what it queued before
    an exception, stays; the result list and the written files are not
    touched. *)
Theorem process_files_only_appends (path : str) (pattern : option str) (st : store) :
  exists (queued : list task) (printed : list out_line),
    snd (process_files path pattern st) =
    mkStore (svg_queue st ++ queued) (output_list st)
            (stdout st ++ printed) (written st).
Proof.
  revert st. change (grows (process_files path pattern)).
  unfold process_files. apply grows_bind; [now apply grows_unchanged|]. intros pat.
  destruct (isdir path); [|destruct (is_zipfile path)].
  - apply grows_bind.
    + apply grows_for_each. intros [[root dirs] files].
      apply grows_for_each. intros file. apply grows_dir_file.
    + intros _. apply grows_bind; [|intros n]; now apply grows_unchanged.
  - apply grows_bind; [now apply grows_unchanged|]. intros names.
    apply grows_bind.
    + apply grows_for_each. intros file. apply grows_zip_member.
    + intros _. apply grows_bind; [|intros n]; now apply grows_unchanged.
  - now apply grows_unchanged.
Qed.

End EnumerationGrowth.

(** ** The exceptions of [process_files] *)

Section EnumerationErrors.

Context {P : Platform}.

Lemma page_number_errors (file_name pattern : str) :
  raises_only enumeration_error (page_number file_name pattern).
Proof.
  intros st st' e. unfold page_number, try_except, bind, lift, last_item.
  destruct (rev (findall pattern file_name)) as [|m l].
  - intros H. discriminate H.
  - unfold enumeration_error.
    destruct m as [s|g]; simpl; [destruct (int_of_str s)|]; intros H;
      inversion H; subst; auto 10.
Qed.

(** The exceptions that leave [process_files] are the error of a pattern
    that does not compile, the input error, a failed read of a file or of
    the archive, and what [int] raises on a last match it does not accept.
    The [IndexError] of a name without a match never leaves it.  A pattern
    that does not compile is reported first, with the store untouched,
    whatever the path is. *)
Theorem process_files_errors (path : str) (pattern : option str) (st : store) :
  (forall (e : exn) (st' : store),
      process_files path pattern st = (Raise e, st') ->
      enumeration_error e /\ e <> IndexError) /\
  (re_valid (effective_pattern pattern) = false ->
   process_files path pattern st = (Raise re_error, st)).
Proof.
  split.
  - intros e st' H.
    assert (raises_only enumeration_error (process_files path pattern)) as Hr.
    { unfold process_files. apply raises_only_bind.
      - apply raises_only_lift. unfold re_compile, enumeration_error.
        destruct (re_valid (effective_pattern pattern)); intros e0 He;
          inversion He; auto.
      - intros pat.
        destruct (isdir path); [|destruct (is_zipfile path)].
        + apply raises_only_bind.
          * apply raises_only_for_each. intros [[root dirs] files].
            apply raises_only_for_each. intros file. unfold dir_file.
            destruct (endswith file ".svg"); [|apply raises_only_ret].
            apply raises_only_bind;
              [apply of_option_raises; unfold enumeration_error; auto|].
            intros data. apply raises_only_bind; [apply page_number_errors|].
            intros k s0 s1 e0 He. discriminate He.
          * intros _. apply raises_only_bind; [|intros k; apply raises_only_ret].
            intros s0 s1 e0 He. discriminate He.
        + apply raises_only_bind;
            [apply of_option_raises; unfold enumeration_error; auto 10|].
          intros names. apply raises_only_bind.
          * apply raises_only_for_each. intros file. unfold zip_member.
            destruct (endswith (lower file) ".svg"); [|apply raises_only_ret].
            apply raises_only_bind; [apply page_number_errors|].
            intros k. apply raises_only_bind;
              [apply of_option_raises; unfold enumeration_error; auto 10|].
            intros data s0 s1 e0 He. discriminate He.
          * intros _. apply raises_only_bind; [|intros k; apply raises_only_ret].
            intros s0 s1 e0 He. discriminate He.
        + intros s0 s1 e0 He. inversion He. unfold enumeration_error. auto. }
    pose proof (Hr _ _ _ H) as He. split; [exact He|].
    unfold enumeration_error, InputError in He.
    intros ->. repeat (destruct He as [He|He]; [discriminate He|]). discriminate He.
  - intros Hv. unfold process_files, bind, lift, re_compile. now rewrite Hv.
Qed.

End EnumerationErrors.

(** ** More on [write_pdf] *)

Section AssemblyReport.

Context {P : Platform}.

Lemma write_pdf_unwritable (file_name : str) (st : store) :
  output_list st <> [] -> can_write file_name = false ->
  let sorted := list_sort (output_list st) in
  write_pdf file_name st =
  (Raise OSError,
   mkStore (svg_queue st) sorted (stdout st ++ merger_log sorted) (written st)).
Proof.
  intros Hne Hw sorted. unfold write_pdf.
  destruct (output_list st) as [|r l] eqn:E; [congruence|].
  unfold bind at 1. unfold sort_output. rewrite E. fold sorted.
  unfold bind at 1. rewrite merge_pages_spec.
  cbn [svg_queue output_list stdout written app].
  unfold bind, merger_write. now rewrite Hw.
Qed.

Lemma merger_log_lines (l : list result) : Forall is_merger_error (merger_log l).
Proof.
  induction l as [|[i pdf] l IH]; simpl; [constructor|].
  destruct (merger_append pdf); [assumption | now constructor].
Qed.

Lemma Permutation_filter {A} (f : A -> bool) (l l' : list A) :
  Permutation l l' -> Permutation (filter f l) (filter f l').
Proof.
  induction 1 as [|x l l' Hp IH|x y l|l l' l'' H1 IH1 H2 IH2]; simpl.
  - constructor.
  - destruct (f x); [now constructor | assumption].
  - destruct (f x), (f y); try reflexivity. apply perm_swap.
  - now transitivity (filter f l').
Qed.

Lemma list_sort_idempotent (l : list (Z * bytes)) : list_sort (list_sort l) = list_sort l.
Proof. apply list_sort_order_independent, list_sort_perm. Qed.

(** [write_pdf] sorts the list it is given in place: whatever the outcome
    (nothing to do, document written, write refused), the caller's list is
    afterwards a sorted rearrangement of what it was, and the queue is as
    before. *)
Theorem write_pdf_sorts_in_place (file_name : str) (st : store) :
  Permutation (output_list (snd (write_pdf file_name st))) (output_list st) /\
  StronglySorted tuple_le (output_list (snd (write_pdf file_name st))) /\
  svg_queue (snd (write_pdf file_name st)) = svg_queue st.
Proof.
  destruct (output_list st) as [|r l] eqn:E.
  - unfold write_pdf. rewrite E. simpl. rewrite E.
    split; [reflexivity|]. split; [constructor | reflexivity].
  - assert (output_list st <> []) as Hne by congruence.
    destruct (can_write file_name) eqn:Hw.
    + rewrite (write_pdf_nonempty _ _ Hne Hw). cbn [snd output_list svg_queue].
      rewrite E. split; [apply list_sort_perm|].
      split; [apply list_sort_sorted | reflexivity].
    + rewrite (write_pdf_unwritable _ _ Hne Hw). cbn [snd output_list svg_queue].
      rewrite E. split; [apply list_sort_perm|].
      split; [apply list_sort_sorted | reflexivity].
Qed.

(** When the output path cannot be written, [write_pdf] ends with the
    error of the write: no file is recorded and no summary line is printed;
    the only lines printed are the merger's failures on single pages. *)
Theorem write_pdf_write_refused (file_name : str) (st : store) :
  output_list st <> [] -> can_write file_name = false ->
  exists (st' : store) (log : list out_line),
    write_pdf file_name st = (Raise OSError, st') /\
    written st' = written st /\
    stdout st' = (stdout st ++ log)%list /\
    Forall is_merger_error log.
Proof.
  intros Hne Hw. eexists. exists (merger_log (list_sort (output_list st))).
  split; [now apply write_pdf_unwritable|]. cbn [written stdout].
  split; [reflexivity|]. split; [reflexivity | apply merger_log_lines].
Qed.

(** The pages of the written document are the blobs the merger accepted
    and nothing else: a result the merger refuses is left out of the
    document (no blank page takes its place), so the document has as many
    blobs as there are results minus the refused ones. *)
Theorem write_pdf_page_count (file_name : str) (st : store) :
  output_list st <> [] -> can_write file_name = true ->
  exists (st' : store) (merged : list bytes),
    write_pdf file_name st = (Return tt, st') /\
    written st' = (written st ++ [(file_name, merged)])%list /\
    (List.length merged + List.length (filter rejected (output_list st)) =
     List.length (output_list st))%nat /\
    (forall p : bytes,
        In p merged <-> exists i : Z, In (i, p) (output_list st) /\ accepts p = true).
Proof.
  intros Hne Hw. set (sorted := list_sort (output_list st)).
  assert (Permutation sorted (output_list st)) as Hp by apply list_sort_perm.
  eexists. exists (map snd (appended sorted)).
  split; [now apply write_pdf_nonempty|]. cbn [written]. split; [reflexivity|].
  split.
  - rewrite length_map. unfold appended.
    rewrite <- (Permutation_length (Permutation_filter rejected _ _ Hp)).
    assert (@List.length result (output_list st) = List.length sorted) as ->
      by (symmetry; apply (Permutation_length Hp)).
    apply (filter_length (fun r : result => accepts (snd r)) sorted).
  - intros p. rewrite in_map_iff. split.
    + intros [[i q] [Hq Hin]]. simpl in Hq. subst q.
      apply filter_In in Hin. destruct Hin as [Hin Hacc].
      exists i. split; [now apply (Permutation_in _ Hp) | exact Hacc].
    + intros [i [Hin Hacc]]. exists (i, p). split; [reflexivity|].
      apply filter_In. split; [|exact Hacc].
      now apply (Permutation_in _ (Permutation_sym Hp)).
Qed.


(** Calling [write_pdf] a second time on what the first call left writes
    the same document under the same name again and prints the same lines:
    the list is already sorted, and sorting keeps it. *)
Theorem write_pdf_twice (file_name : str) (st : store) :
  output_list st <> [] -> can_write file_name = true ->
  exists (st1 st2 : store) (merged : list bytes) (lines : list out_line),
    write_pdf file_name st = (Return tt, st1) /\
    write_pdf file_name st1 = (Return tt, st2) /\
    written st2 = (written st ++ [(file_name, merged); (file_name, merged)])%list /\
    stdout st2 = (stdout st ++ lines ++ lines)%list /\
    output_list st2 = output_list st1.
Proof.
  intros Hne Hw. set (sorted := list_sort (output_list st)).
  assert (sorted <> []) as Hne'.
  { intros E. apply Hne. apply Permutation_nil.
    pose proof (list_sort_perm (output_list st)) as Hp.
    fold sorted in Hp. now rewrite E in Hp. }
  pose proof (write_pdf_nonempty file_name st Hne Hw) as H1. cbv zeta in H1.
  fold sorted in H1.
  eexists. eexists. exists (map snd (appended sorted)),
    (merger_log sorted ++ [summary file_name sorted])%list.
  split; [exact H1|]. split.
  - rewrite write_pdf_nonempty; [|exact Hne' | exact Hw].
    cbn [svg_queue output_list stdout written]. reflexivity.
  - cbn [svg_queue output_list stdout written].
    unfold sorted. rewrite !list_sort_idempotent. fold sorted.
    rewrite <- !app_assoc. auto.
Qed.

End AssemblyReport.

(** ** More on the pool of workers *)

Section PoolHistory.

Context {P : Platform}.

Lemma convert_task_lines (done total : Z) (t : task) (st : store) :
  exists log : list out_line,
    convert_task done total t st =
    (Return tt,
     mkStore (svg_queue st) (output_list st ++ [result_of t])
             (stdout st ++ log) (written st)) /\
    Forall (fun line => line = ProgressCleared done total \/
                        exists e, line = ConvertError e) log.
Proof.
  destruct t as [i svg_data].
  unfold convert_task, render, result_of, rendered, try_except, bind, lift,
    output_append, print, ret. cbn [fst snd].
  destruct (svg2rlg svg_data) as [drawing|e].
  - destruct (drawToString drawing) as [pdf|e].
    + exists [ProgressCleared done total]. cbn. split; [reflexivity|].
      repeat constructor.
    + exists [ConvertError e; ProgressCleared done total]. cbn.
      rewrite <- app_assoc. split; [reflexivity|].
      constructor; [right; eauto | repeat constructor].
  - exists [ConvertError e; ProgressCleared done total]. cbn.
    rewrite <- app_assoc. split; [reflexivity|].
    constructor; [right; eauto | repeat constructor].
Qed.

Lemma pool_history_step (st0 : store) (number_of_pages : Z) (c : nat * bool)
    (j j' : job) :
  pool_history st0 j -> job_step number_of_pages c j = Some j' -> pool_history st0 j'.
Proof.
  intros [pulled [published [printed [Hq [Ho [Hs [Hw [Hp Hc]]]]]]]] Hstep.
  destruct c as [w empty_signal]. unfold job_step in Hstep.
  destruct (nth_error (procs j) w) as [p|] eqn:Hnth; [|discriminate].
  destruct (terminated p) eqn:Ht; [discriminate|].
  pose proof (held_set_proc w p) as Hheld.
  destruct p as [| |done total|done total t| |e]; simpl in Ht; try discriminate;
    simpl in Hstep; unfold bind, qsize, print, ret, try_except, get_nowait in Hstep.
  - destruct (Z.of_nat (List.length (svg_queue (shared j))) >? 0);
      inversion Hstep; subst; clear Hstep;
      exists pulled, published, printed; cbn [shared procs];
      (repeat split; try assumption; [|now apply no_crash_set_proc]).
    + specialize (Hheld AtProgress _ Hnth). simpl in Hheld. now rewrite Hheld.
    + specialize (Hheld Exited _ Hnth). simpl in Hheld. now rewrite Hheld.
  - inversion Hstep; subst; clear Hstep.
    exists pulled, published,
      (printed ++ [Progress (number_of_pages -
                             Z.of_nat (List.length (svg_queue (shared j))))
                            number_of_pages])%list.
    cbn [shared procs svg_queue output_list stdout written].
    repeat split; try assumption.
    + rewrite Hs. now rewrite app_assoc.
    + match goal with |- context [set_proc w ?q _] =>
        specialize (Hheld q _ Hnth) end.
      simpl in Hheld. now rewrite Hheld.
    + now apply no_crash_set_proc.
  - destruct (svg_queue (shared j)) as [|t q] eqn:Hqueue.
    + inversion Hstep; subst; clear Hstep.
      exists pulled, published, printed. cbn [shared procs]. rewrite Hqueue.
      repeat split; try assumption; [|now apply no_crash_set_proc].
      specialize (Hheld AtWhile _ Hnth). simpl in Hheld. now rewrite Hheld.
    + destruct empty_signal; inversion Hstep; subst; clear Hstep.
      * exists pulled, published, printed. cbn [shared procs]. rewrite Hqueue.
        repeat split; try assumption; [|now apply no_crash_set_proc].
        specialize (Hheld AtWhile _ Hnth). simpl in Hheld. now rewrite Hheld.
      * exists (pulled ++ [t])%list, published, printed.
        cbn [shared procs svg_queue output_list stdout written].
        repeat split; try assumption.
        -- rewrite Hq. now rewrite <- app_assoc.
        -- specialize (Hheld (Holding done total t) _ Hnth). simpl in Hheld.
           rewrite Hheld, map_app. simpl map.
           rewrite <- Hp. rewrite <- app_assoc.
           apply Permutation_app_head. apply Permutation_cons_append.
        -- now apply no_crash_set_proc.
  - destruct (convert_task_lines done total t (shared j)) as [log [Hconv _]].
    rewrite Hconv in Hstep. inversion Hstep; subst; clear Hstep.
    exists pulled, (published ++ [result_of t])%list, (printed ++ log)%list.
    cbn [shared procs svg_queue output_list stdout written].
    repeat split; try assumption.
    + rewrite Ho. now rewrite app_assoc.
    + rewrite Hs. now rewrite app_assoc.
    + specialize (Hheld AtWhile _ Hnth). simpl in Hheld.
      rewrite <- Hp, <- Hheld. simpl map. rewrite <- app_assoc. reflexivity.
    + now apply no_crash_set_proc.
Qed.

Lemma pool_history_spawn (number_of_CPUs : nat) (st0 : store) :
  pool_history st0 (spawn number_of_CPUs st0).
Proof.
  exists [], [], []. unfold spawn. cbn [shared procs].
  assert (existsb crashed (repeat AtWhile number_of_CPUs) = false) as H1
    by (induction number_of_CPUs; simpl; auto).
  assert (held (repeat AtWhile number_of_CPUs) = []) as H2
    by (induction number_of_CPUs; simpl; auto).
  rewrite H2, !app_nil_r. repeat split; auto.
Qed.

(** At every moment of every run of the pool: the tasks still queued are a
    tail of the queue the workers were started on (tasks leave from the
    head, none is put back or added); results and printed lines are only
    appended; no file is written; each published result is the conversion
    of a pulled task, the other pulled tasks being held by workers; no
    worker has ended with an exception; the pool keeps its size. *)
Theorem run_workers_history (number_of_pages : Z) (number_of_CPUs : nat)
    (st0 : store) (schedule : list (nat * bool)) (j : job) :
  run_workers number_of_pages schedule (spawn number_of_CPUs st0) = Some j ->
  exists (pulled : list task) (published : list result) (printed : list out_line),
    svg_queue st0 = (pulled ++ svg_queue (shared j))%list /\
    output_list (shared j) = (output_list st0 ++ published)%list /\
    stdout (shared j) = (stdout st0 ++ printed)%list /\
    written (shared j) = written st0 /\
    Permutation (published ++ map result_of (held (procs j))) (map result_of pulled) /\
    existsb crashed (procs j) = false /\
    List.length (procs j) = number_of_CPUs.
Proof.
  intros Hrun.
  assert (pool_history st0 j) as H.
  { apply (run_workers_invariant (pool_history st0) number_of_pages)
      with (schedule := schedule) (j := spawn number_of_CPUs st0).
    - intros c j1 j2. apply pool_history_step.
    - apply pool_history_spawn.
    - exact Hrun. }
  destruct H as [pulled [published [printed [Hq [Ho [Hs [Hw [Hp Hc]]]]]]]].
  exists pulled, published, printed. repeat split; try assumption.
  apply run_workers_length in Hrun. rewrite Hrun. simpl. apply repeat_length.
Qed.

Lemma Forall_set_proc (Q : pc -> Prop) (w : nat) (p : pc) (l : list pc) :
  Forall Q l -> Q p -> Forall Q (set_proc w p l).
Proof.
  intros Hl Hp. revert w. induction Hl as [|q l Hq Hl IH]; intros [|w]; simpl;
    constructor; auto.
Qed.

Lemma progress_history_step (st0 : store) (number_of_pages : Z) (c : nat * bool)
    (j j' : job) :
  progress_history number_of_pages st0 j ->
  job_step number_of_pages c j = Some j' ->
  progress_history number_of_pages st0 j'.
Proof.
  intros [Hlen [Hpcs [printed [Hs Hlines]]]] Hstep.
  destruct c as [w empty_signal]. unfold job_step in Hstep.
  destruct (nth_error (procs j) w) as [p|] eqn:Hnth; [|discriminate].
  destruct (terminated p) eqn:Ht; [discriminate|].
  assert (progress_in_bounds number_of_pages p) as Hp.
  { rewrite Forall_forall in Hpcs. apply Hpcs. now apply nth_error_In with w. }
  unfold progress_history.
  destruct p as [| |done total|done total t| |e]; simpl in Ht; try discriminate;
    simpl in Hstep; unfold bind, qsize, print, ret, try_except, get_nowait in Hstep.
  - destruct (Z.of_nat (List.length (svg_queue (shared j))) >? 0);
      inversion Hstep; subst; clear Hstep;
      (split; [exact Hlen|]); (split; [now apply Forall_set_proc|]);
      exists printed; auto.
  - inversion Hstep; subst; clear Hstep.
    assert (0 <= number_of_pages - Z.of_nat (List.length (svg_queue (shared j)))
            <= number_of_pages) as Hb by lia.
    split; [exact Hlen|]. split; [apply Forall_set_proc; simpl; auto|].
    exists (printed ++ [Progress (number_of_pages -
                                  Z.of_nat (List.length (svg_queue (shared j))))
                                 number_of_pages])%list.
    cbn [shared stdout]. rewrite Hs, app_assoc. split; [reflexivity|].
    apply Forall_app. split; [assumption|]. repeat constructor; simpl; lia.
  - destruct (svg_queue (shared j)) as [|t q] eqn:Hqueue.
    + inversion Hstep; subst; clear Hstep. cbn [shared procs]. rewrite Hqueue.
      split; [exact Hlen|]. split; [now apply Forall_set_proc|].
      exists printed; auto.
    + destruct empty_signal; inversion Hstep; subst; clear Hstep;
        cbn [shared procs svg_queue stdout].
      * rewrite Hqueue. split; [exact Hlen|]. split; [now apply Forall_set_proc|].
        exists printed; auto.
      * split; [simpl List.length in Hlen; lia|].
        split; [apply Forall_set_proc; auto|]. exists printed; auto.
  - destruct (convert_task_lines done total t (shared j)) as [log [Hconv Hlog]].
    rewrite Hconv in Hstep. inversion Hstep; subst; clear Hstep.
    cbn [shared procs svg_queue stdout].
    split; [exact Hlen|]. split; [now apply Forall_set_proc|].
    exists (printed ++ log)%list. rewrite Hs, app_assoc. split; [reflexivity|].
    apply Forall_app. split; [assumption|].
    eapply Forall_impl; [|exact Hlog].
    intros line [->|[e ->]]; simpl; auto.
Qed.

(** In a job started, as [main] does, with the queue's length as the number
    of pages, the workers print only progress lines, their blank
    overwrites and conversion errors, and every progress line shows a count
    between 0 and the number of pages, both included. *)
Theorem progress_stays_in_bounds (number_of_CPUs : nat) (st0 : store)
    (schedule : list (nat * bool)) (j : job) :
  let number_of_pages := Z.of_nat (List.length (svg_queue st0)) in
  run_workers number_of_pages schedule (spawn number_of_CPUs st0) = Some j ->
  exists printed : list out_line,
    stdout (shared j) = (stdout st0 ++ printed)%list /\
    Forall (worker_line number_of_pages) printed.
Proof.
  intros number_of_pages Hrun.
  assert (progress_history number_of_pages st0 j) as [_ [_ H]]; [|exact H].
  apply (run_workers_invariant (progress_history number_of_pages st0) number_of_pages)
    with (schedule := schedule) (j := spawn number_of_CPUs st0).
  - intros c j1 j2. apply progress_history_step.
  - unfold progress_history, spawn. cbn [shared procs].
    split; [unfold number_of_pages; lia|]. split.
    + apply Forall_forall. intros p Hp. apply repeat_spec in Hp. now subst.
    + exists []. rewrite app_nil_r. split; [reflexivity | constructor].
  - exact Hrun.
Qed.

Lemma one_task_schedule_result (number_of_pages : Z) (st : store) (t : task)
    (q : list task) (others : list pc) :
  svg_queue st = t :: q ->
  exists st' : store,
    run_workers number_of_pages one_task_schedule (mkJob st (AtWhile :: others)) =
    Some (mkJob st' (AtWhile :: others)) /\
    svg_queue st' = q /\
    output_list st' = (output_list st ++ [result_of t])%list /\
    written st' = written st.
Proof.
  intros Hq.
  assert ((Z.of_nat (List.length (svg_queue st)) >? 0) = true) as Hpos
    by (rewrite Hq, Z.gtb_ltb; apply Z.ltb_lt; simpl List.length; lia).
  assert (job_step number_of_pages (0%nat, false) (mkJob st (AtWhile :: others)) =
          Some (mkJob st (AtProgress :: others))) as H1.
  { unfold job_step. simpl. unfold bind, qsize, ret. now rewrite Hpos. }
  set (done := number_of_pages - Z.of_nat (List.length (svg_queue st))).
  set (st1 := mkStore (svg_queue st) (output_list st)
                (stdout st ++ [Progress done number_of_pages]) (written st)).
  assert (job_step number_of_pages (0%nat, false) (mkJob st (AtProgress :: others)) =
          Some (mkJob st1 (AtGet done number_of_pages :: others))) as H2
    by reflexivity.
  set (st2 := mkStore q (output_list st1) (stdout st1) (written st1)).
  assert (job_step number_of_pages (0%nat, false)
            (mkJob st1 (AtGet done number_of_pages :: others)) =
          Some (mkJob st2 (Holding done number_of_pages t :: others))) as H3.
  { unfold job_step. simpl. unfold try_except, bind, get_nowait, ret. simpl.
    now rewrite Hq. }
  destruct (convert_task_lines done number_of_pages t st2) as [log [Hc _]].
  set (st3 := mkStore (svg_queue st2) (output_list st2 ++ [result_of t])
                (stdout st2 ++ log) (written st2)) in Hc.
  assert (job_step number_of_pages (0%nat, false)
            (mkJob st2 (Holding done number_of_pages t :: others)) =
          Some (mkJob st3 (AtWhile :: others))) as H4.
  { unfold job_step. simpl. unfold bind. now rewrite Hc. }
  exists st3. unfold one_task_schedule. cbn [run_workers].
  rewrite H1, H2, H3, H4. repeat split; reflexivity.
Qed.

Lemma run_workers_app (number_of_pages : Z) (s1 s2 : list (nat * bool)) (j : job) :
  run_workers number_of_pages (s1 ++ s2) j =
  match run_workers number_of_pages s1 j with
  | Some j' => run_workers number_of_pages s2 j'
  | None => None
  end.
Proof.
  revert j. induction s1 as [|c s1 IH]; intros j; simpl; [reflexivity|].
  destruct (job_step number_of_pages c j); auto.
Qed.

(** When one worker does all the work and no pull sees the empty signal,
    the run ends: every worker exits, the queue is empty, and the results
    are the conversions of the tasks in the order of the queue, after what
    the result list held before. *)
Theorem drain_schedule_in_queue_order (number_of_pages : Z) (number_of_CPUs : nat)
    (st0 : store) :
  (0 < number_of_CPUs)%nat ->
  exists j : job,
    run_workers number_of_pages
                (drain_schedule (List.length (svg_queue st0)) number_of_CPUs)
                (spawn number_of_CPUs st0) = Some j /\
    procs j = repeat Exited number_of_CPUs /\
    joined j = true /\
    svg_queue (shared j) = [] /\
    output_list (shared j) = (output_list st0 ++ map result_of (svg_queue st0))%list /\
    written (shared j) = written st0.
Proof.
  intros Hn. unfold spawn. destruct number_of_CPUs as [|n]; [lia|]. clear Hn.
  remember (svg_queue st0) as queue eqn:Hq. revert st0 Hq.
  induction queue as [|t q IH]; intros st0 Hq.
  - cbn [drain_schedule List.length].
    change (repeat AtWhile (S n)) with (repeat Exited 0 ++ repeat AtWhile (S n))%list.
    rewrite exit_schedule_run by (now symmetry).
    eexists. split; [reflexivity|]. cbn [procs shared map].
    rewrite app_nil_r. repeat split; auto.
    unfold joined. cbn [procs]. generalize (0 + S n)%nat. clear.
    intros m. induction m; simpl; auto.
  - cbn [drain_schedule List.length].
    destruct (one_task_schedule_result number_of_pages st0 t q (repeat AtWhile n)
                (eq_sym Hq)) as [st' [Hrun [Hq' [Ho Hw]]]].
    rewrite run_workers_app. cbn [repeat]. rewrite Hrun.
    destruct (IH st' (eq_sym Hq')) as [j [Hj [Hprocs [Hjoin [He [Hout Hwr]]]]]].
    exists j. cbn [repeat] in Hj. rewrite Hj.
    repeat split; try assumption.
    + rewrite Hout, Ho. cbn [map]. now rewrite <- app_assoc.
    + congruence.
Qed.

End PoolHistory.

(** ** [main] from end to end *)

Section MainDocument.

Context {P : Platform}.

(** Where the pool stands when [main] goes on to [write_pdf]. *)
Lemma joined_pool_end (number_of_pages : Z) (number_of_CPUs : nat) (st1 : store)
    (schedule : list (nat * bool)) (j : job) :
  (0 < number_of_CPUs)%nat -> output_list st1 = [] ->
  run_workers number_of_pages schedule (spawn number_of_CPUs st1) = Some j ->
  joined j = true ->
  Permutation (output_list (shared j)) (map result_of (svg_queue st1)) /\
  svg_queue (shared j) = [] /\
  written (shared j) = written st1.
Proof.
  intros Hn Ho Hrun Hj.
  destruct (run_workers_pool_invariant _ _ _ _ _ Ho Hrun) as [Hc [Hp He]].
  destruct (joined_pool _ Hj Hc) as [Hh Hex].
  assert (procs j <> []) as Hne.
  { pose proof (run_workers_length _ _ _ _ Hrun) as Hl. simpl in Hl.
    rewrite repeat_length in Hl. intros E. rewrite E in Hl. simpl in Hl. lia. }
  rewrite Hh, (He (Hex Hne)) in Hp. simpl in Hp. rewrite app_nil_r in Hp.
  split; [exact Hp|]. split; [auto|].
  assert (pool_history st1 j) as [_ [_ [_ [_ [_ [_ [Hw _]]]]]]]; [|exact Hw].
  apply (run_workers_invariant (pool_history st1) number_of_pages)
    with (schedule := schedule) (j := spawn number_of_CPUs st1).
  - intros c j1 j2. apply pool_history_step.
  - apply pool_history_spawn.
  - exact Hrun.
Qed.


(** When [process_files] has queued at least one task and the output path
    can be written, [main] ends normally under every schedule, whatever
    rendering or merging does on single pages, and the one file it writes
    holds the accepted conversions of the queued tasks in sorted order. *)
Theorem main_writes_sorted_conversions (path : str) (pattern : option str)
    (number_of_CPUs : nat) (schedule : list (nat * bool)) (st st1 : store)
    (pdf_file_name : str) (n : Z) (r : outcome unit * store) :
  (0 < number_of_CPUs)%nat ->
  process_files path pattern (mkStore [] [] (stdout st) (written st)) =
    (Return (pdf_file_name, n), st1) ->
  svg_queue st1 <> [] ->
  can_write pdf_file_name = true ->
  main path pattern number_of_CPUs schedule st = Some r ->
  fst r = Return tt /\
  written (snd r) =
    (written st ++
     [(pdf_file_name,
       map snd (appended (list_sort (map result_of (svg_queue st1)))))])%list /\
  output_list (snd r) = list_sort (map result_of (svg_queue st1)) /\
  svg_queue (snd r) = [].
Proof.
  intros Hn Hpf Hq Hw Hmain. unfold main in Hmain. rewrite Hpf in Hmain.
  destruct (run_workers n schedule (spawn number_of_CPUs st1)) as [j|] eqn:Hrun;
    [|discriminate].
  destruct (joined j) eqn:Hj; [|discriminate].
  destruct (frame_process_files path pattern (mkStore [] [] (stdout st) (written st)))
    as [Ho Hwr].
  rewrite Hpf in Ho, Hwr. simpl in Ho, Hwr.
  destruct (joined_pool_end _ _ _ _ _ Hn Ho Hrun Hj) as [Hp [He Hwj]].
  assert (output_list (shared j) <> []) as Hne.
  { intros E. rewrite E in Hp. apply Permutation_nil in Hp.
    apply map_eq_nil in Hp. contradiction. }
  rewrite (write_pdf_nonempty _ _ Hne Hw) in Hmain.
  inversion Hmain; subst r. cbn [fst snd written output_list svg_queue].
  rewrite (list_sort_order_independent _ _ Hp), Hwj, Hwr, He. auto.
Qed.


End MainDocument.

(** ** The further properties on the concrete platform *)

Section ConcreteHistory.

Import Demo.

Lemma process_files_directory_witness :
  isdir "book" = true /\
  process_files "book" None empty_store =
    (Return ("book.pdf", 3), snd (process_files "book" None empty_store)) /\
  exists tasks : list task,
    Forall2 (fun rf t =>
               read_file (path_join (fst rf) (snd rf)) = Some (snd t) /\
               indexed_as "\d+" (snd rf) (fst t))
            [("book", "page_2.svg"); ("book", "page_1.svg"); ("book", "cover.svg")]
            tasks /\
    snd (process_files "book" None empty_store) =
      mkStore tasks [] [IndexWarning "cover.svg" "\d+"] [].
Proof.
  assert (isdir "book" = true) as Hd by reflexivity.
  assert (process_files "book" None empty_store =
          (Return ("book.pdf", 3), snd (process_files "book" None empty_store)))
    as Hpf by reflexivity.
  split; [exact Hd|]. split; [exact Hpf|].
  destruct (process_files_directory "book" None empty_store _ "book.pdf" 3 Hd Hpf)
    as [tasks [Hf [Hst _]]].
  exists tasks. split; [exact Hf | exact Hst].
Defined.

Lemma process_files_archive_witness :
  isdir "pages.zip" = false /\
  process_files "pages.zip" None empty_store =
    (Return ("pages.pdf", 2), snd (process_files "pages.zip" None empty_store)) /\
  exists tasks : list task,
    Forall2 (fun f t =>
               zip_read "pages.zip" f = Some (snd t) /\ indexed_as "\d+" f (fst t))
            ["p10.SVG"; "intro.svg"] tasks /\
    snd (process_files "pages.zip" None empty_store) =
      mkStore tasks [] [IndexWarning "intro.svg" "\d+"] [].
Proof.
  assert (isdir "pages.zip" = false) as Hd by reflexivity.
  assert (process_files "pages.zip" None empty_store =
          (Return ("pages.pdf", 2), snd (process_files "pages.zip" None empty_store)))
    as Hpf by reflexivity.
  split; [exact Hd|]. split; [exact Hpf|].
  destruct (process_files_archive "pages.zip" None empty_store _ "pages.pdf" 2 Hd Hpf)
    as [names [tasks [_ [Hn [Hf [Hst _]]]]]].
  assert (names = ["p10.SVG"; "readme.md"; "intro.svg"]) as ->
    by (simpl in Hn; congruence).
  exists tasks. split; [exact Hf | exact Hst].
Defined.

Lemma write_pdf_write_refused_witness :
  output_list mixed_results <> [] /\
  @can_write ReadOnly.read_only "o.pdf" = false /\
  exists (st' : store) (log : list out_line),
    @write_pdf ReadOnly.read_only "o.pdf" mixed_results = (Raise OSError, st') /\
    written st' = written mixed_results /\
    stdout st' = (stdout mixed_results ++ log)%list /\
    Forall is_merger_error log.
Proof.
  assert (output_list mixed_results <> []) as Hne by discriminate.
  assert (@can_write ReadOnly.read_only "o.pdf" = false) as Hw by reflexivity.
  split; [exact Hne|]. split; [exact Hw|].
  exact (@write_pdf_write_refused ReadOnly.read_only "o.pdf" mixed_results Hne Hw).
Defined.

Lemma write_pdf_page_count_witness :
  output_list mixed_results <> [] /\ can_write "o.pdf" = true /\
  filter rejected (output_list mixed_results) = [(2, "corrupt")] /\
  exists (st' : store) (merged : list bytes),
    write_pdf "o.pdf" mixed_results = (Return tt, st') /\
    written st' = [("o.pdf", merged)] /\
    (List.length merged + 1 = 3)%nat /\
    ~ In "corrupt" merged.
Proof.
  assert (output_list mixed_results <> []) as Hne by discriminate.
  assert (can_write "o.pdf" = true) as Hw by reflexivity.
  split; [exact Hne|]. split; [exact Hw|]. split; [reflexivity|].
  destruct (write_pdf_page_count "o.pdf" mixed_results Hne Hw)
    as [st' [merged [Hrun [Hwr [Hlen Hin]]]]].
  exists st', merged. split; [exact Hrun|]. split; [exact Hwr|].
  split; [exact Hlen|].
  intros H. apply Hin in H. destruct H as [i [_ Hacc]]. discriminate Hacc.
Defined.


Lemma write_pdf_twice_witness :
  output_list tied_results <> [] /\ can_write "o.pdf" = true /\
  exists (st1 st2 : store) (merged : list bytes) (lines : list out_line),
    write_pdf "o.pdf" tied_results = (Return tt, st1) /\
    write_pdf "o.pdf" st1 = (Return tt, st2) /\
    written st2 = [("o.pdf", merged); ("o.pdf", merged)] /\
    stdout st2 = (lines ++ lines)%list /\
    output_list st2 = output_list st1.
Proof.
  assert (output_list tied_results <> []) as Hne by discriminate.
  assert (can_write "o.pdf" = true) as Hw by reflexivity.
  split; [exact Hne|]. split; [exact Hw|].
  exact (write_pdf_twice "o.pdf" tied_results Hne Hw).
Defined.

Lemma run_workers_history_witness :
  run_workers 2 interleaving (spawn 2 two_tasks) = Some final_job /\
  exists (pulled : list task) (published : list result) (printed : list out_line),
    svg_queue two_tasks = (pulled ++ svg_queue (shared final_job))%list /\
    output_list (shared final_job) = (output_list two_tasks ++ published)%list /\
    stdout (shared final_job) = (stdout two_tasks ++ printed)%list /\
    written (shared final_job) = written two_tasks /\
    Permutation (published ++ map result_of (held (procs final_job)))
                (map result_of pulled) /\
    existsb crashed (procs final_job) = false /\
    List.length (procs final_job) = 2%nat.
Proof.
  assert (run_workers 2 interleaving (spawn 2 two_tasks) = Some final_job) as Hrun
    by reflexivity.
  split; [exact Hrun|].
  exact (run_workers_history 2 2 two_tasks interleaving final_job Hrun).
Defined.

Lemma progress_stays_in_bounds_witness :
  run_workers (Z.of_nat (List.length (svg_queue two_tasks))) interleaving
              (spawn 2 two_tasks) = Some final_job /\
  exists printed : list out_line,
    stdout (shared final_job) = (stdout two_tasks ++ printed)%list /\
    Forall (worker_line 2) printed.
Proof.
  assert (run_workers (Z.of_nat (List.length (svg_queue two_tasks))) interleaving
                      (spawn 2 two_tasks) = Some final_job) as Hrun by reflexivity.
  split; [exact Hrun|].
  exact (progress_stays_in_bounds 2 two_tasks interleaving final_job Hrun).
Defined.

Lemma drain_schedule_in_queue_order_witness :
  (0 < 2)%nat /\
  exists j : job,
    run_workers 2 (drain_schedule 2 2) (spawn 2 two_tasks) = Some j /\
    procs j = [Exited; Exited] /\
    joined j = true /\
    svg_queue (shared j) = [] /\
    output_list (shared j) = [(2, "%PDF <svg>two</svg>"); (1, BLANK_PDF_PAGE)] /\
    written (shared j) = [].
Proof.
  assert (0 < 2)%nat as Hn by lia.
  split; [exact Hn|].
  exact (drain_schedule_in_queue_order 2 2 two_tasks Hn).
Defined.

Lemma main_writes_sorted_conversions_witness :
  (0 < 2)%nat /\
  process_files "book" None empty_store =
    (Return ("book.pdf", 3), snd (process_files "book" None empty_store)) /\
  svg_queue (snd (process_files "book" None empty_store)) <> [] /\
  can_write "book.pdf" = true /\
  exists r : outcome unit * store,
    main "book" None 2 Runs.side_by_side empty_store = Some r /\
    fst r = Return tt /\
    written (snd r) =
      [("book.pdf", ["%PDF <svg>cover</svg>"; BLANK_PDF_PAGE; "%PDF <svg>two</svg>"])] /\
    svg_queue (snd r) = [].
Proof.
  assert (0 < 2)%nat as Hn by lia.
  assert (process_files "book" None empty_store =
          (Return ("book.pdf", 3), snd (process_files "book" None empty_store)))
    as Hpf by reflexivity.
  assert (svg_queue (snd (process_files "book" None empty_store)) <> []) as Hq
    by (intros E; vm_compute in E; discriminate E).
  assert (can_write "book.pdf" = true) as Hw by reflexivity.
  split; [exact Hn|]. split; [exact Hpf|]. split; [exact Hq|]. split; [exact Hw|].
  destruct (main "book" None 2 Runs.side_by_side empty_store) as [r|] eqn:Hm;
    [|vm_compute in Hm; discriminate Hm].
  exists r. split; [reflexivity|].
  destruct (main_writes_sorted_conversions "book" None 2 Runs.side_by_side
              empty_store _ "book.pdf" 3 r Hn Hpf Hq Hw Hm)
    as [Hout [Hwr [_ Hqueue]]].
  split; [exact Hout|]. split; [exact Hwr | exact Hqueue].
Defined.


Lemma process_files_errors_witness :
  re_valid (effective_pattern (Some "(")) = false /\
  process_files "book" (Some "(") two_tasks = (Raise re_error, two_tasks) /\
  exists (e : exn) (st' : store),
    process_files "book" (Some "[a-z]+") empty_store = (Raise e, st') /\
    enumeration_error e /\ e <> IndexError.
Proof.
  assert (re_valid (effective_pattern (Some "(")) = false) as Hv by reflexivity.
  split; [exact Hv|].
  split; [exact (proj2 (process_files_errors "book" (Some "(") two_tasks) Hv)|].
  destruct (process_files "book" (Some "[a-z]+") empty_store) as [[a|e] st'] eqn:H;
    [vm_compute in H; discriminate H|].
  exists e, st'. split; [reflexivity|].
  exact (proj1 (process_files_errors "book" (Some "[a-z]+") empty_store) e st' H).
Defined.

End ConcreteHistory.
